(** * Swap submission and RPC transport selection of the web interface

    A shallow embedding of
    - [apps/web/src/hooks/useSwapCallback.tsx]: [getUniversalRouterFeeFields],
      the callback returned by [useSwapCallback], [useSwapTransactionStatus]
      and [clientToProvider];
    - the wagmi configuration module: [orderedTransportUrls],
      [createWagmiConfig] (its [client] factory) and [defaultOnFetchResponse].

    JavaScript values are modelled as follows: [undefined] is [None];
    numbers that are chain ids, status codes or raw amounts are [Z];
    strings are [string]; objects are records; an object with identity
    (a viem client, an ethers provider) carries a reference number; calls
    to collaborators outside these files are recorded as events of a trace,
    and [throw] is the left summand of the outcome. *)

From stdpp Require Import gmap strings list pretty.

Open Scope Z_scope.

(** ** Effects: a trace of collaborator calls and an exception *)

(** [new Error(message)] *)
Inductive exn : Type := Error (message : string).

#[global] Instance exn_eq_dec : EqDecision exn.
Proof. solve_decision. Defined.

(** A computation emits events of type [E], then throws or returns. *)
Definition M (E A : Type) : Type := list E * (exn + A).

Definition ret {E A} (a : A) : M E A := ([], inr a).
Definition throw {E A} (e : exn) : M E A := ([], inl e).
Definition emit {E} (ev : E) : M E unit := ([ev], inr tt).
Definition bind {E A B} (m : M E A) (k : A -> M E B) : M E B :=
  match m with
  | (tr, inl e) => (tr, inl e)
  | (tr, inr a) => let '(tr', r) := k a in (tr ++ tr', r)
  end.

Notation "'do' x <- m ; k" := (bind m (fun x => k))
  (at level 10, x name, m at level 100, k at level 200).
Notation "'run' m ; k" := (bind m (fun _ => k))
  (at level 10, m at level 100, k at level 200).

Definition trace {E A} (m : M E A) : list E := fst m.
Definition outcome {E A} (m : M E A) : exn + A := snd m.

(** JavaScript truthiness of the values that the code tests. *)
Definition truthy_string (s : string) : bool := bool_decide (s ≠ "").
Definition truthy_number (n : Z) : bool := bool_decide (n ≠ 0).
Definition truthy_opt {A} (t : A -> bool) (o : option A) : bool :=
  match o with Some a => t a | None => false end.

(** [Number.prototype.toString] / [BigInt.prototype.toString] on integers. *)
Definition toString (n : Z) : string := pretty n.

(** ** The wagmi configuration module *)

Module WagmiConfig.

(** [chain.rpcUrls]: four optional tiers, each [{ http: string[] }].
    The projections are prefixed: [default] and [http] name other things. *)
Record RpcUrlTier := { tier_http : list string }.

Record RpcUrls := {
  rpc_interface : option RpcUrlTier;
  rpc_default : option RpcUrlTier;
  rpc_public : option RpcUrlTier;
  rpc_fallback : option RpcUrlTier;
}.

Record Chain := {
  id : Z;
  name : string;
  rpcUrls : RpcUrls;
}.

(** [tier?.http ?? []] *)
Definition http_or_empty (t : option RpcUrlTier) : list string :=
  match t with Some t => tier_http t | None => [] end.

(** [Boolean] applied to a string. *)
Definition Boolean (s : string) : bool := truthy_string s.

(** A JavaScript [Set] iterates in insertion order; [add] of a member
    leaves it unchanged. It is the list of its members in that order. *)
Definition Set_add (s : list string) (x : string) : list string :=
  if decide (x ∈ s) then s else s ++ [x].

(** [new Set(iterable)] adds the elements one after the other. *)
Definition new_Set (xs : list string) : list string := foldl Set_add [] xs.

(** [Array.from(set)] *)
Definition Array_from (s : list string) : list string := s.

(** The spread of the four tiers in priority order. *)
Definition orderedRpcUrls (chain : Chain) : list string :=
  http_or_empty (rpc_interface (rpcUrls chain)) ++
  http_or_empty (rpc_default (rpcUrls chain)) ++
  http_or_empty (rpc_public (rpcUrls chain)) ++
  http_or_empty (rpc_fallback (rpcUrls chain)).

Definition orderedTransportUrls (chain : Chain) : list string :=
  Array_from (new_Set (List.filter Boolean (orderedRpcUrls chain))).

(** Position of the first occurrence, as [Array.prototype.indexOf]. *)
Fixpoint indexOf (x : string) (l : list string) : option nat :=
  match l with
  | [] => None
  | y :: l => if decide (x = y) then Some 0%nat else S <$> indexOf x l
  end.

(** The tiers of a chain, highest priority first. *)
Definition tiers (chain : Chain) : list (list string) :=
  [ http_or_empty (rpc_interface (rpcUrls chain));
    http_or_empty (rpc_default (rpcUrls chain));
    http_or_empty (rpc_public (rpcUrls chain));
    http_or_empty (rpc_fallback (rpcUrls chain)) ].

(** Where a URL first occurs: the rank of the first tier that holds it
    and its first position in that tier. *)
Fixpoint tier_position (x : string) (ts : list (list string)) : option (nat * nat) :=
  match ts with
  | [] => None
  | t :: ts =>
      match indexOf x t with
      | Some i => Some (0%nat, i)
      | None => (fun p => (S (fst p), snd p)) <$> tier_position x ts
      end
  end.

(** Lexicographic order on (tier rank, position in the tier). *)
Definition position_lt (p q : nat * nat) : Prop :=
  (fst p < fst q)%nat \/ (fst p = fst q /\ (snd p < snd q)%nat).

(** The elements of [xs] that are not in [seen], each at its first
    occurrence: what [new Set] appends to a set that holds [seen]. *)
Fixpoint first_occurrences (seen xs : list string) : list string :=
  match xs with
  | [] => []
  | x :: xs =>
      if decide (x ∈ seen) then first_occurrences seen xs
      else x :: first_occurrences (seen ++ [x]) xs
  end.

(** [Response]: only the status code is read. *)
Record Response := { status : Z }.

(** The structured context of a diagnostic. *)
Record Extra := { extra_chainId : Z; extra_url : string }.
Record Tags := { tag_file : string; tag_function : string }.

(** Calls to the logger. *)
Inductive LogCall : Type :=
  | logger_warn (fileName functionName message : string) (extra : Extra)
  | logger_error (error : exn) (extra : Extra) (tags : Tags).

Definition is_warn (c : LogCall) : bool :=
  match c with logger_warn _ _ _ _ => true | _ => false end.
Definition is_error (c : LogCall) : bool :=
  match c with logger_error _ _ _ => true | _ => false end.
Definition extra_of (c : LogCall) : Extra :=
  match c with logger_warn _ _ _ e => e | logger_error _ e _ => e end.

(** [http(url, { onFetchResponse })], [fallback(transports)] and
    [createClient(config)] build plain configuration objects. *)
Record HttpTransport := {
  url : string;
  onFetchResponse : Response -> M LogCall unit;
}.

Definition http (u : string) (hook : Response -> M LogCall unit) : HttpTransport :=
  {| url := u; onFetchResponse := hook |}.

Record FallbackTransport := { transports : list HttpTransport }.

Definition fallback (ts : list HttpTransport) : FallbackTransport :=
  {| transports := ts |}.

Record Batch := { multicall : bool }.

Record Client := {
  chain : Chain;
  batch : Batch;
  pollingInterval : Z;
  transport : FallbackTransport;
}.

Definition createClient (c : Client) : Client := c.

Section Config.

(** [isTestnetChain] of [uniswap/src/features/chains/utils]. *)
Variable isTestnetChain : Z -> bool.

Definition defaultOnFetchResponse (response : Response) (chain : Chain) (url : string)
  : M LogCall unit :=
  if bool_decide (status response ≠ 200) then
    let message := "RPC provider returned non-200 status: " +:+ toString (status response) in
    if isTestnetChain (id chain) then
      emit (logger_warn "wagmiConfig.ts" "client" message
              {| extra_chainId := id chain; extra_url := url |})
    else
      emit (logger_error (Error message)
              {| extra_chainId := id chain; extra_url := url |}
              {| tag_file := "wagmiConfig.ts"; tag_function := "client" |})
  else ret tt.

(** The [client({ chain })] function of the configuration built by
    [createWagmiConfig]; [onFetchResponse] defaults to
    [defaultOnFetchResponse]. *)
Definition createWagmiConfig_client
    (onFetchResponse : option (Response -> Chain -> string -> M LogCall unit))
    (chain : Chain) : Client :=
  let onFetchResponse := default defaultOnFetchResponse onFetchResponse in
  createClient
    {| chain := chain;
       batch := {| multicall := true |};
       pollingInterval := 12000;
       transport :=
         fallback
           (map (fun url => http url (fun response => onFetchResponse response chain url))
                (orderedTransportUrls chain)) |}.

End Config.

End WagmiConfig.

(** ** [useSwapCallback.tsx] *)

Module SwapCallback.

(** [UniverseChainId]: a number. *)
Definition ChainId := Z.

Inductive TradeType : Type := EXACT_INPUT | EXACT_OUTPUT.

(** The members of [TradeFillType] that the file names. *)
Inductive TradeFillType : Type := Classic | UniswapX | UniswapXv2.

#[global] Instance TradeFillType_eq_dec : EqDecision TradeFillType.
Proof. solve_decision. Defined.

(** A [Percent] is a fraction; 1% is [numerator := 1], [denominator := 100]. *)
Record Percent := { numerator : Z; denominator : Z }.

Record Currency := {
  currency_chainId : ChainId;
  currency_isNative : bool;
  currency_address : string;
}.

(** A currency amount: its currency and its raw integer quantity. *)
Record CurrencyAmount := { currency : Currency; quotient : Z }.

(** [trade.swapFee] *)
Record SwapFee := {
  fee_percent : Percent;
  fee_recipient : string;
  fee_amount : string;
}.

(** The variant tag of a trade: classic, off-chain order, limit order. *)
Inductive TradeVariant : Type := ClassicTrade | OffchainOrderTrade | LimitOrderTrade.

Record InterfaceTrade := {
  variant : TradeVariant;
  tradeType : TradeType;
  inputAmount : CurrencyAmount;
  outputAmount : CurrencyAmount;
  swapFee : option SwapFee;
}.

(** Modelled from the spec: the variant predicates of [state/routing/utils],
    which is not among the source files. The spec has a closed variant tag
    (classic | off-chain-order | limit-order) and calls a limit order "a
    specific off-chain-order sub-variant". *)
Definition isClassicTrade (trade : option InterfaceTrade) : bool :=
  match trade with
  | Some t => match variant t with ClassicTrade => true | _ => false end
  | None => false
  end.

(** Modelled from the spec: [isUniswapXTrade] of [state/routing/utils]
    holds of the off-chain-order variants, the limit order among them. *)
Definition isUniswapXTrade (trade : option InterfaceTrade) : bool :=
  match trade with
  | Some t => match variant t with ClassicTrade => false | _ => true end
  | None => false
  end.

(** Modelled from the spec: [isLimitTrade] of [state/routing/utils] holds
    of the limit-order variant alone. *)
Definition isLimitTrade (trade : option InterfaceTrade) : bool :=
  match trade with
  | Some t => match variant t with LimitOrderTrade => true | _ => false end
  | None => false
  end.

(** Modelled from the spec: [trade.minimumAmountOut] is a method of the
    trade classes, which are not among the source files. The spec: the
    minimum output is "computed by applying the slippage tolerance downward
    to the expected output" (500 reduced by 1% is 495). The integer result
    is the floor, as [quotient] of a fraction. *)
Definition minimumAmountOut (trade : InterfaceTrade) (slippage : Percent) : CurrencyAmount :=
  {| currency := currency (outputAmount trade);
     quotient := quotient (outputAmount trade) * (denominator slippage - numerator slippage)
                 / denominator slippage |}.

(** Modelled from the spec: [trade.maximumAmountIn], a method of the trade
    classes like [minimumAmountOut]; the maximum input is "computed by
    applying the slippage tolerance upward to the expected input". *)
Definition maximumAmountIn (trade : InterfaceTrade) (slippage : Percent) : CurrencyAmount :=
  {| currency := currency (inputAmount trade);
     quotient := quotient (inputAmount trade) * (denominator slippage + numerator slippage)
                 / denominator slippage |}.

(** [FeeOptions] of the v3 SDK and [FlatFeeOptions] of the router SDK. *)
Record FeeOptions := { fee : Percent; recipient : string }.
Record FlatFeeOptions := { amount : Z; flat_recipient : string }.

(** [UniversalRouterFeeField]: an object that may hold the key
    [feeOptions] and may hold the key [flatFeeOptions]; it is spread into
    the options of the router callback. *)
Record UniversalRouterFeeField := {
  feeOptions : option FeeOptions;
  flatFeeOptions : option FlatFeeOptions;
}.

(** Submission results. The classic one carries the provider response and
    an optional deadline; the UniswapX one an order response. *)
Record TransactionResponse := { hash : string }.
Record ClassicSwapResult := {
  classic_response : TransactionResponse;
  classic_deadline : option Z;
}.
Record OrderResponse := { orderHash : string; encodedOrder : string; deadline : Z }.
Inductive UniswapXFillType : Type := FillUniswapX | FillUniswapXv2.
Record UniswapXSwapResult := {
  uniswapx_type : UniswapXFillType;
  uniswapx_response : OrderResponse;
}.

Inductive SwapResult : Type :=
  | ClassicResult (r : ClassicSwapResult)
  | UniswapXResult (r : UniswapXSwapResult).

(** [result.type] *)
Definition result_type (r : SwapResult) : TradeFillType :=
  match r with
  | ClassicResult _ => Classic
  | UniswapXResult r =>
      match uniswapx_type r with FillUniswapX => UniswapX | FillUniswapXv2 => UniswapXv2 end
  end.

(** Enumerations of [transactionDetails]; of each, the members used here
    and some of the others. *)
Inductive TransactionType : Type := Swap | Approve | Wrap.
Inductive TransactionStatus : Type := Pending | Success | Failed | Canceled | Expired.
Inductive TransactionOriginType : Type := Internal | External.
Inductive QueuedOrderStatus : Type := Waiting | Submitted | SubmissionFailed.
Inductive Routing : Type := CLASSIC | DUTCH_V2 | DUTCH_LIMIT | LIMIT_ORDER.

(** The trade-type specific part of the swap's [TransactionInfo]; the
    constructor is the [tradeType] tag. *)
Inductive SwapAmounts : Type :=
  | ExactInputSwapAmounts
      (inputCurrencyAmountRaw expectedOutputCurrencyAmountRaw
       minimumOutputCurrencyAmountRaw : string)
  | ExactOutputSwapAmounts
      (maximumInputCurrencyAmountRaw outputCurrencyAmountRaw
       expectedInputCurrencyAmountRaw : string).

Definition amounts_tradeType (a : SwapAmounts) : TradeType :=
  match a with
  | ExactInputSwapAmounts _ _ _ => EXACT_INPUT
  | ExactOutputSwapAmounts _ _ _ => EXACT_OUTPUT
  end.

Record TransactionInfo := {
  type : TransactionType;
  inputCurrencyId : string;
  outputCurrencyId : string;
  isUniswapXOrder : bool;
  swapAmounts : SwapAmounts;
}.

(** [UniswapXOrderDetails<InterfaceTransactionDetails>] as the file builds it. *)
Record UniswapXOrderDetails := {
  order_id : string;
  order_chainId : ChainId;
  order_from : string;
  order_status : TransactionStatus;
  order_addedTime : Z;
  order_transactionOriginType : TransactionOriginType;
  order_typeInfo : TransactionInfo;
  order_routing : Routing;
  order_orderHash : string;
  order_queueStatus : QueuedOrderStatus;
  order_encodedOrder : string;
  order_expiry : Z;
}.

(** [useAccount()] *)
Record Account := {
  isConnected : bool;
  address : option string;
  chainId : option ChainId;
}.

Section Hook.

(** Opaque values that are only passed on. *)
Context {FiatValues PermitSignature : Type}.

(** Functions of the repository that are not among the source files. *)
Variable currencyId : Currency -> string.
Variable isEVMChain : ChainId -> bool.
Variable useSupportedChainId : option ChainId -> option ChainId.
(** [BigNumber.from] on the fee's raw amount. *)
Variable BigNumber_from : string -> Z.

Definition getUniversalRouterFeeFields (trade : option InterfaceTrade)
  : option UniversalRouterFeeField :=
  if negb (isClassicTrade trade) then None
  else
    match trade with
    | None => None
    | Some trade =>
        match swapFee trade with
        | None => None
        | Some swapFee =>
            match tradeType trade with
            | EXACT_INPUT =>
                Some {| feeOptions := Some {| fee := fee_percent swapFee;
                                              recipient := fee_recipient swapFee |};
                        flatFeeOptions := None |}
            | EXACT_OUTPUT =>
                Some {| feeOptions := None;
                        flatFeeOptions :=
                          Some {| amount := BigNumber_from (fee_amount swapFee);
                                  flat_recipient := fee_recipient swapFee |} |}
            end
        end
    end.

(** The argument of [useSwapCallback]. *)
Record Props := {
  trade : option InterfaceTrade;
  fiatValues : FiatValues;
  allowedSlippage : Percent;
  permitSignature : option PermitSignature;
}.

(** The arguments of the two submission hooks. *)
Record UniswapXSwapArgs := {
  x_trade : option InterfaceTrade;
  x_allowedSlippage : Percent;
  x_fiatValues : FiatValues;
}.

Record UniversalRouterSwapOptions := {
  slippageTolerance : Percent;
  permit : option PermitSignature;
  feeFields : option UniversalRouterFeeField;
}.

Record UniversalRouterSwapArgs := {
  ur_trade : option InterfaceTrade;
  ur_fiatValues : FiatValues;
  ur_options : UniversalRouterSwapOptions;
}.

(** What the hooks of one render give the callback: the account, the
    target chain, and how each collaborator answers when it is called. *)
Record Hooks := {
  account : Account;
  swapChainId : option ChainId;
  selectChain : ChainId -> bool;
  useUniswapXSwapCallback : UniswapXSwapArgs -> exn + UniswapXSwapResult;
  useUniversalRouterSwapCallback : UniversalRouterSwapArgs -> exn + ClassicSwapResult;
  Date_now : Z;
}.

(** Calls to the collaborators, in the order they are made. *)
Inductive Event : Type :=
  | selectChain_call (chainId : ChainId) (resolved : bool)
  | uniswapXSwapCallback_call (args : UniswapXSwapArgs)
  | universalRouterSwapCallback_call (args : UniversalRouterSwapArgs)
  | addClassicTransaction_call
      (response : TransactionResponse) (info : TransactionInfo) (deadline : option Z)
  | dispatch_addTransaction (details : UniswapXOrderDetails).

Definition call_selectChain (h : Hooks) (c : ChainId) : M Event bool :=
  run emit (selectChain_call c (selectChain h c)); ret (selectChain h c).

Definition of_outcome {A} (r : exn + A) : M Event A :=
  match r with inl e => throw e | inr a => ret a end.

Definition uniswapXSwapCallback (p : Props) (h : Hooks) : M Event UniswapXSwapResult :=
  let args := {| x_trade := if isUniswapXTrade (trade p) then trade p else None;
                 x_allowedSlippage := allowedSlippage p;
                 x_fiatValues := fiatValues p |} in
  run emit (uniswapXSwapCallback_call args); of_outcome (useUniswapXSwapCallback h args).

Definition universalRouterSwapCallback (p : Props) (h : Hooks) : M Event ClassicSwapResult :=
  let args := {| ur_trade := if isClassicTrade (trade p) then trade p else None;
                 ur_fiatValues := fiatValues p;
                 ur_options :=
                   {| slippageTolerance := allowedSlippage p;
                      permit := permitSignature p;
                      feeFields := getUniversalRouterFeeFields (trade p) |} |} in
  run emit (universalRouterSwapCallback_call args);
  of_outcome (useUniversalRouterSwapCallback h args).

Definition swapCallback (p : Props) (h : Hooks) : M Event SwapResult :=
  if isUniswapXTrade (trade p)
  then do r <- uniswapXSwapCallback p h; ret (UniswapXResult r)
  else do r <- universalRouterSwapCallback p h; ret (ClassicResult r).

Definition supportedConnectedChainId (h : Hooks) : option ChainId :=
  useSupportedChainId (chainId (account h)).

Definition MissingTrade : exn := Error "missing trade".
Definition WalletNotConnected : exn := Error "wallet must be connected to swap".
Definition MissingChain : exn := Error "missing swap chainId".
Definition UnsupportedChainFamily : exn := Error "non EVM chain in legacy limits flow".
Definition ChainSwitchFailed : exn :=
  Error "wallet must be connected to correct chain to swap".

(** The [if ... else if ...] chain that opens the callback. When it falls
    through, the trade, the address and the target chain are known to be
    there, and it hands them on. *)
Definition validate (p : Props) (h : Hooks) : M Event (InterfaceTrade * string * ChainId) :=
  match trade p with
  | None => throw MissingTrade
  | Some trade =>
      match address (account h) with
      | None => throw WalletNotConnected
      | Some address =>
          if negb (isConnected (account h)) || negb (truthy_string address)
          then throw WalletNotConnected
          else
            match swapChainId h with
            | None => throw MissingChain
            | Some swapChainId =>
                if negb (truthy_number swapChainId) then throw MissingChain
                else if negb (isEVMChain swapChainId) then throw UnsupportedChainFamily
                else if negb (truthy_opt truthy_number (supportedConnectedChainId h))
                        || bool_decide (supportedConnectedChainId h ≠ Some swapChainId)
                then
                  do correctChain <- call_selectChain h swapChainId;
                  if negb correctChain then throw ChainSwitchFailed
                  else ret (trade, address, swapChainId)
                else ret (trade, address, swapChainId)
            end
      end
  end.

Definition swapInfo (trade : InterfaceTrade) (allowedSlippage : Percent) (result : SwapResult)
  : TransactionInfo :=
  {| type := Swap;
     inputCurrencyId := currencyId (currency (inputAmount trade));
     outputCurrencyId := currencyId (currency (outputAmount trade));
     isUniswapXOrder :=
       bool_decide (result_type result = UniswapX)
       || bool_decide (result_type result = UniswapXv2);
     swapAmounts :=
       match tradeType trade with
       | EXACT_INPUT =>
           ExactInputSwapAmounts
             (toString (quotient (inputAmount trade)))
             (toString (quotient (outputAmount trade)))
             (toString (quotient (minimumAmountOut trade allowedSlippage)))
       | EXACT_OUTPUT =>
           ExactOutputSwapAmounts
             (toString (quotient (maximumAmountIn trade allowedSlippage)))
             (toString (quotient (outputAmount trade)))
             (toString (quotient (inputAmount trade)))
       end |}.

(** The record that the callback builds for a limit order. *)
Definition limitOrderTransaction (h : Hooks) (address : string) (swapChainId : ChainId)
    (swapInfo : TransactionInfo) (r : UniswapXSwapResult) : UniswapXOrderDetails :=
  {| order_id := orderHash (uniswapx_response r);
     order_chainId := swapChainId;
     order_from := address;
     order_status := Pending;
     order_addedTime := Date_now h;
     order_transactionOriginType := Internal;
     order_typeInfo := swapInfo;
     order_routing := DUTCH_LIMIT;
     order_orderHash := orderHash (uniswapx_response r);
     order_queueStatus := Submitted;
     order_encodedOrder := encodedOrder (uniswapx_response r);
     order_expiry := deadline (uniswapx_response r) |}.

(** The recording step: a classic result goes to the transaction adder,
    the result of a limit order is dispatched to the store, any other
    result is not recorded here. *)
Definition record (h : Hooks) (trade : InterfaceTrade) (address : string)
    (swapChainId : ChainId) (swapInfo : TransactionInfo) (result : SwapResult)
  : M Event unit :=
  match result with
  | ClassicResult r =>
      emit (addClassicTransaction_call (classic_response r) swapInfo (classic_deadline r))
  | UniswapXResult r =>
      if isLimitTrade (Some trade) then
        emit (dispatch_addTransaction
                (limitOrderTransaction h address swapChainId swapInfo r))
      else ret tt
  end.

(** The async function that [useSwapCallback] returns. *)
Definition submitSwap (p : Props) (h : Hooks) : M Event SwapResult :=
  do v <- validate p h;
  let '(trade, address, swapChainId) := v in
  do result <- swapCallback p h;
  let swapInfo := swapInfo trade (allowedSlippage p) result in
  run record h trade address swapChainId swapInfo result;
  ret result.

(** *** What a trace shows *)

(** A request to switch chain, whatever came of it. *)
Definition is_switch_attempt (ev : Event) : bool :=
  match ev with selectChain_call _ _ => true | _ => false end.

(** A chain switch that took place: the request resolved truthy. (A falsy
    answer of the switch operation means that the wallet could not be
    switched.) *)
Definition is_switch (ev : Event) : bool :=
  match ev with selectChain_call _ true => true | _ => false end.

(** A call of a submission primitive. *)
Definition is_submission (ev : Event) : bool :=
  match ev with
  | uniswapXSwapCallback_call _ | universalRouterSwapCallback_call _ => true
  | _ => false
  end.

(** The add operation of the tracking subsystem. *)
Definition is_tracker_add (ev : Event) : bool :=
  match ev with addClassicTransaction_call _ _ _ => true | _ => false end.

(** A record appended to the transaction store by the callback itself. *)
Definition is_store_append (ev : Event) : bool :=
  match ev with dispatch_addTransaction _ => true | _ => false end.

Definition is_record_write (ev : Event) : bool :=
  is_tracker_add ev || is_store_append ev.

Definition count (f : Event -> bool) (tr : list Event) : nat :=
  length (List.filter f tr).

(** The amount summary that an event records, if it records one. *)
Definition recorded_info (ev : Event) : option TransactionInfo :=
  match ev with
  | addClassicTransaction_call _ info _ => Some info
  | dispatch_addTransaction details => Some (order_typeInfo details)
  | _ => None
  end.

(** *** The five precondition checks, named *)

Inductive Check : Type :=
  | TradePresent
  | WalletConnected
  | ChainResolvable
  | ChainFamilySupported
  | ChainMatches.

#[global] Instance Check_eq_dec : EqDecision Check.
Proof. solve_decision. Defined.

Definition checks : list Check :=
  [TradePresent; WalletConnected; ChainResolvable; ChainFamilySupported; ChainMatches].

(** The connected chain differs from the target: the condition under which
    the callback asks for a switch. *)
Definition differs_from_target (h : Hooks) (target : ChainId) : bool :=
  negb (truthy_opt truthy_number (supportedConnectedChainId h))
  || bool_decide (supportedConnectedChainId h ≠ Some target).

Definition check_passes (p : Props) (h : Hooks) (c : Check) : bool :=
  match c with
  | TradePresent => match trade p with Some _ => true | None => false end
  | WalletConnected =>
      isConnected (account h) && truthy_opt truthy_string (address (account h))
  | ChainResolvable => truthy_opt truthy_number (swapChainId h)
  | ChainFamilySupported => truthy_opt isEVMChain (swapChainId h)
  | ChainMatches =>
      match swapChainId h with
      | Some target => negb (differs_from_target h target) || selectChain h target
      | None => false
      end
  end.

(** The first check, in the order of [checks], that does not pass. *)
Definition first_failing (p : Props) (h : Hooks) : option Check :=
  List.find (fun c => negb (check_passes p h c)) checks.

Definition check_error (c : Check) : exn :=
  match c with
  | TradePresent => MissingTrade
  | WalletConnected => WalletNotConnected
  | ChainResolvable => MissingChain
  | ChainFamilySupported => UnsupportedChainFamily
  | ChainMatches => ChainSwitchFailed
  end.

(** The switch part of a trace: nothing when the connected chain is the
    target, else the one request with its answer. *)
Definition switch_part (h : Hooks) (target : ChainId) : list Event :=
  if differs_from_target h target
  then [selectChain_call target (selectChain h target)] else [].

End Hook.

(** *** Status lookup *)

(** A record of the transaction store; of its fields, the identifier and
    the lifecycle status. *)
Record InterfaceTransactionDetails := {
  tx_id : string;
  tx_status : TransactionStatus;
}.

(** Modelled from the spec: [useTransaction] of [state/transactions/hooks],
    which is not among the source files, is the read path of the
    transaction store, "getByHash(hash) -> record|undefined"; without a
    hash there is nothing to look up. *)
Definition useTransaction (store : gmap string InterfaceTransactionDetails)
    (transactionHash : option string) : option InterfaceTransactionDetails :=
  match transactionHash with
  | Some h => store !! h
  | None => None
  end.

Definition useSwapTransactionStatus (store : gmap string InterfaceTransactionDetails)
    (swapResult : option SwapResult) : option TransactionStatus :=
  let transaction :=
    useTransaction store
      match swapResult with
      | Some (ClassicResult r) => Some (hash (classic_response r))
      | _ => None
      end in
  match transaction with
  | None => None
  | Some transaction => Some (tx_status transaction)
  end.

End SwapCallback.

(** ** [clientToProvider] *)

Module EthersProvider.

Record Contract := { contract_address : string }.
Record Contracts := { ensRegistry : option Contract }.

(** A viem [Chain], as far as it is read. *)
Record Chain := {
  id : Z;
  name : string;
  contracts : option Contracts;
}.

(** The network object handed to ethers. *)
Record Network := {
  chainId : Z;
  network_name : string;
  ensAddress : option string;
}.

Section Providers.

(** A viem transport is only passed on. *)
Context {Transport : Type}.

(** A client is an object: [client_ref] is its identity. *)
Record Client := {
  client_ref : nat;
  chain : option Chain;
  transport : Transport;
}.

(** A provider is an object too; [provider_ref] is its identity. *)
Record Web3Provider := {
  provider_ref : nat;
  provider_transport : Transport;
  provider_network : Network;
}.

(** The module state: the [providers] WeakMap, keyed by client identity,
    and the number of objects allocated so far. *)
Record Heap := {
  providers : gmap nat Web3Provider;
  allocated : nat;
}.

(** [new Web3Provider(transport, network)] allocates a fresh object. *)
Definition new_Web3Provider (t : Transport) (n : Network) (σ : Heap) : Web3Provider * Heap :=
  ({| provider_ref := allocated σ; provider_transport := t; provider_network := n |},
   {| providers := providers σ; allocated := S (allocated σ) |}).

Definition providers_set (c : Client) (p : Web3Provider) (σ : Heap) : Heap :=
  {| providers := <[client_ref c := p]> (providers σ); allocated := allocated σ |}.

(** The [network] constant of [clientToProvider]. *)
Definition network_of (client : Client) (chainId : option Z) : option Network :=
  match chain client with
  | Some chain =>
      Some {| chainId := id chain;
              network_name := name chain;
              ensAddress :=
                c ← contracts chain; r ← ensRegistry c; Some (contract_address r) |}
  | None =>
      match chainId with
      | Some chainId =>
          if truthy_number chainId
          then Some {| chainId := chainId; network_name := "Unsupported"; ensAddress := None |}
          else None
      | None => None
      end
  end.

Definition clientToProvider (client : option Client) (chainId : option Z) (σ : Heap)
  : option Web3Provider * Heap :=
  match client with
  | None => (None, σ)
  | Some client =>
      match network_of client chainId with
      | None => (None, σ)
      | Some network =>
          match providers σ !! client_ref client with
          | Some provider => (Some provider, σ)
          | None =>
              let '(provider, σ') := new_Web3Provider (transport client) network σ in
              (Some provider, providers_set client provider σ')
          end
      end
  end.

(** A sequence of calls, each on the state the one before left; with each
    result, whether that call constructed a provider. *)
Fixpoint calls (cs : list (option Client * option Z)) (σ : Heap)
  : list (option Client * option Web3Provider * bool) * Heap :=
  match cs with
  | [] => ([], σ)
  | (client, chainId) :: cs =>
      let '(r, σ') := clientToProvider client chainId σ in
      let '(rs, σ'') := calls cs σ' in
      ((client, r, bool_decide (allocated σ' ≠ allocated σ)) :: rs, σ'')
  end.

(** A step made with the client of identity [ref] that constructed a
    provider. *)
Definition constructs_for (ref : nat)
    (s : option Client * option Web3Provider * bool) : bool :=
  match s with
  | (Some c, _, true) => bool_decide (client_ref c = ref)
  | _ => false
  end.

(** How many providers a run constructed for the client of identity [ref]. *)
Definition constructions (ref : nat)
    (steps : list (option Client * option Web3Provider * bool)) : nat :=
  length (List.filter (constructs_for ref) steps).

End Providers.

End EthersProvider.

(** ** The hooks around [clientToProvider] *)

Module EthersHooks.

Import EthersProvider.

Section Hooks.

Context {Transport : Type}.

(** The value that the memo of [useEthersProvider] computes from the
    account's chain, the requested chain id, the connector client
    ([useConnectorClient]) and the disconnected client ([useClient]). *)
Definition useEthersProvider (account_chainId chainId : option Z)
    (client disconnectedClient : option (@Client Transport)) (σ : Heap)
  : option Web3Provider * Heap :=
  clientToProvider
    (if bool_decide (account_chainId ≠ chainId) then disconnectedClient
     else match client with Some c => Some c | None => disconnectedClient end)
    chainId σ.

(** The value that the memo of [useEthersWeb3Provider] computes. *)
Definition useEthersWeb3Provider (chainId : option Z)
    (client : option (@Client Transport)) (σ : Heap) : option Web3Provider * Heap :=
  clientToProvider client chainId σ.

(** The empty [providers] WeakMap of a freshly loaded module. *)
Definition initial_heap : @Heap Transport := {| providers := ∅; allocated := 0 |}.

(** A heap is well formed when every cached provider has been allocated
    and no provider is cached for two clients. *)
Definition heap_wf (σ : @Heap Transport) : Prop :=
  (∀ ref p, providers σ !! ref = Some p → (provider_ref p < allocated σ)%nat)
  ∧ (∀ ref1 ref2 p1 p2,
       providers σ !! ref1 = Some p1 → providers σ !! ref2 = Some p2 →
       provider_ref p1 = provider_ref p2 → ref1 = ref2).

End Hooks.

End EthersHooks.

(** ** The wallet connectors and the configuration object *)

Module WagmiConnectors.

Import WagmiConfig.

(** A provider object that a wallet extension injects into the page;
    [provider_id] is its identity, [isTrustWallet] its optional flag. *)
Record InjectedProvider := {
  provider_id : nat;
  isTrustWallet : option bool;
}.

Record Binancew3w := { ethereum : option InjectedProvider }.

(** [window], as far as it is read. *)
Record Window := {
  BinanceChain : option InjectedProvider;
  binancew3w : option Binancew3w;
}.

(** Truthiness of an object or [undefined]. *)
Definition truthy_object {A} (o : option A) : bool := truthy_opt (fun _ => true) o.

(** The [target] handed to wagmi's [injected]; [target_provider] is the
    thunk, which reads the window when it is called. *)
Record InjectedTarget := {
  target_id : string;
  target_name : string;
  target_provider : Window -> option InjectedProvider;
}.

(** What [getBinanceConnector] returns: wagmi's [injected] connector, or
    the connector of [getWagmiConnectorV2]. *)
Inductive BinanceConnector : Type :=
  | injected (target : InjectedTarget)
  | BinanceW3WConnector (showQrCodeModal : bool).

Record CoinbaseWalletOptions := {
  appName : string;
  appLogoUrl : string;
  reloadOnDisconnect : bool;
}.

Inductive ConnectorKind : Type :=
  | PortoKind
  | BinanceKind
  | WalletConnectKind
  | EmbeddedWalletKind
  | CoinbaseWalletKind
  | SafeKind
  | MockKind.

#[global] Instance ConnectorKind_eq_dec : EqDecision ConnectorKind.
Proof. solve_decision. Defined.

(** The fixed order in which the connectors are listed. *)
Definition connector_order : list ConnectorKind :=
  [PortoKind; BinanceKind; WalletConnectKind; EmbeddedWalletKind;
   CoinbaseWalletKind; SafeKind; MockKind].

Section Connectors.

(** [WC_PARAMS] is only passed on. *)
Context {WalletConnectParams : Type}.

(** Constants of the repository that are not among the source files. *)
Variable WC_PARAMS : WalletConnectParams.
Variable BINANCE_WALLET_CONNECTOR_ID : string.
Variable UNISWAP_WEB_URL : string.
Variable UNISWAP_LOGO : string.
Variable PLAYWRIGHT_CONNECT_ADDRESS : string.

(** The environment: the page's window, if there is one, and what
    [isTestEnv()] and [isPlaywrightEnv()] answer. *)
Variable window : option Window.
Variable isTestEnv : bool.
Variable isPlaywrightEnv : bool.

(** The connectors, each with the configuration it is built from. *)
Inductive Connector : Type :=
  | porto
  | binance (c : BinanceConnector)
  | walletConnect (params : WalletConnectParams)
  | embeddedWallet
  | coinbaseWallet (options : CoinbaseWalletOptions)
  | safe
  | createRejectableMockConnector (accounts : list string).

Definition connector_kind (c : Connector) : ConnectorKind :=
  match c with
  | porto => PortoKind
  | binance _ => BinanceKind
  | walletConnect _ => WalletConnectKind
  | embeddedWallet => EmbeddedWalletKind
  | coinbaseWallet _ => CoinbaseWalletKind
  | safe => SafeKind
  | createRejectableMockConnector _ => MockKind
  end.

Definition isBinanceDetected : bool :=
  match window with
  | Some w =>
      truthy_object (BinanceChain w)
      || (truthy_object (binancew3w w)
          && truthy_opt (fun b => truthy_object (ethereum b)) (binancew3w w))
  | None => false
  end.

Definition isTrustWalletExtensionInstalled : bool :=
  match window with
  | Some w =>
      match BinanceChain w with
      | Some p => truthy_opt (fun b : bool => b) (isTrustWallet p)
      | None => false
      end
  | None => false
  end.

Definition isBinanceExtensionInstalled : bool :=
  isBinanceDetected && negb isTrustWalletExtensionInstalled.

(** [() => window.BinanceChain || window.binancew3w?.ethereum] *)
Definition binance_provider (w : Window) : option InjectedProvider :=
  match BinanceChain w with
  | Some p => Some p
  | None => b ← binancew3w w; ethereum b
  end.

Definition getBinanceConnector : BinanceConnector :=
  if isBinanceExtensionInstalled then
    injected {| target_id := BINANCE_WALLET_CONNECTOR_ID;
                target_name := "Binance Wallet";
                target_provider := binance_provider |}
  else BinanceW3WConnector true.

Definition createWagmiConnectors (includeMockConnector : bool) : list Connector :=
  let baseConnectors :=
    [porto; binance getBinanceConnector]
    ++ (if isTestEnv && negb isPlaywrightEnv then [] else [walletConnect WC_PARAMS])
    ++ [embeddedWallet;
        coinbaseWallet {| appName := "Uniswap";
                          appLogoUrl := UNISWAP_WEB_URL +:+ UNISWAP_LOGO;
                          reloadOnDisconnect := false |};
        safe] in
  if includeMockConnector
  then baseConnectors ++ [createRejectableMockConnector [PLAYWRIGHT_CONNECT_ADDRESS]]
  else baseConnectors.

Definition defaultConnectors : list Connector :=
  createWagmiConnectors isPlaywrightEnv.

(** The chain list and the helper that checks it, and the testnet test;
    none is among the source files. *)
Variable ORDERED_EVM_CHAINS : list Chain.
Variable getNonEmptyArrayOrThrow : list Chain -> exn + list Chain.
Variable isTestnetChain : Z -> bool.

(** The object handed to [createConfig]. *)
Record Config := {
  chains : list Chain;
  connectors : list Connector;
  client : Chain -> Client;
}.

Definition createWagmiConfig (connectors : list Connector)
    (onFetchResponse : option (Response -> Chain -> string -> M LogCall unit))
  : exn + Config :=
  match getNonEmptyArrayOrThrow ORDERED_EVM_CHAINS with
  | inl e => inl e
  | inr chains =>
      inr {| chains := chains;
             connectors := connectors;
             client := createWagmiConfig_client isTestnetChain onFetchResponse |}
  end.

Definition wagmiConfig : exn + Config := createWagmiConfig defaultConnectors None.

End Connectors.

End WagmiConnectors.

(** ** Sample values *)

Module Samples.

Import SwapCallback.

Definition ETH : Currency :=
  {| currency_chainId := 1; currency_isNative := true; currency_address := "ETH" |}.
Definition USDC : Currency :=
  {| currency_chainId := 1; currency_isNative := false; currency_address := "0xa0b8" |}.

Definition currencyId (c : Currency) : string :=
  toString (currency_chainId c) +:+ "-" +:+ currency_address c.

(** Chains 1, 10 and 8453 are supported and EVM; 501000101 is not EVM. *)
Definition isEVMChain (c : ChainId) : bool := bool_decide (c ≠ 501000101).
Definition useSupportedChainId (c : option ChainId) : option ChainId :=
  match c with
  | Some c => if bool_decide (c ∈ [1; 10; 8453; 501000101]) then Some c else None
  | None => None
  end.
(** A stand-in for [BigNumber.from]; the samples do not depend on it. *)
Definition BigNumber_from (s : string) : Z := Z.of_nat (String.length s).

Definition one_percent : Percent := {| numerator := 1; denominator := 100 |}.

Definition fee : SwapFee :=
  {| fee_percent := {| numerator := 25; denominator := 10000 |};
     fee_recipient := "0xfee";
     fee_amount := "12" |}.

(** Input 1000, output 500. *)
Definition trade (v : TradeVariant) (ty : TradeType) : InterfaceTrade :=
  {| variant := v;
     tradeType := ty;
     inputAmount := {| currency := ETH; quotient := 1000 |};
     outputAmount := {| currency := USDC; quotient := 500 |};
     swapFee := Some fee |}.

Definition props (t : option InterfaceTrade) : @Props unit unit :=
  {| SwapCallback.trade := t;
     fiatValues := tt;
     allowedSlippage := one_percent;
     permitSignature := None |}.

(** A connected wallet on chain [connected]; the swap targets chain 1;
    a switch request resolves to [switch_ok]; both primitives succeed. *)
Definition hooks (connected : option ChainId) (switch_ok : bool) : @Hooks unit unit :=
  {| account := {| isConnected := true; address := Some "0xabc"; chainId := connected |};
     swapChainId := Some 1;
     selectChain := fun _ => switch_ok;
     useUniswapXSwapCallback := fun _ =>
       inr {| uniswapx_type := FillUniswapXv2;
              uniswapx_response :=
                {| orderHash := "0xorder"; encodedOrder := "0xencoded";
                   deadline := 1700000000 |} |};
     useUniversalRouterSwapCallback := fun _ =>
       inr {| classic_response := {| hash := "0xhash" |};
              classic_deadline := Some 1700000600 |};
     Date_now := 1699999999000 |}.

Definition submit (t : option InterfaceTrade) (connected : option ChainId) (switch_ok : bool)
  : M (@Event unit unit) SwapResult :=
  submitSwap currencyId isEVMChain useSupportedChainId BigNumber_from
    (props t) (hooks connected switch_ok).

(** A chain whose tiers interleave, repeat and hold an empty entry. *)
Definition chain : WagmiConfig.Chain :=
  {| WagmiConfig.id := 1;
     WagmiConfig.name := "mainnet";
     WagmiConfig.rpcUrls :=
       {| WagmiConfig.rpc_interface := Some {| WagmiConfig.tier_http := ["b"; "a"; "b"] |};
          WagmiConfig.rpc_default := None;
          WagmiConfig.rpc_public := Some {| WagmiConfig.tier_http := ["c"; ""; "a"] |};
          WagmiConfig.rpc_fallback := Some {| WagmiConfig.tier_http := ["d"; "c"] |} |} |}.

End Samples.

(** ** More sample values *)

Module MoreSamples.

Import SwapCallback.

(** A chain whose tiers list each URL once and no empty URL. *)
Definition clean_chain : WagmiConfig.Chain :=
  {| WagmiConfig.id := 10;
     WagmiConfig.name := "optimism";
     WagmiConfig.rpcUrls :=
       {| WagmiConfig.rpc_interface := Some {| WagmiConfig.tier_http := ["a"; "b"] |};
          WagmiConfig.rpc_default := Some {| WagmiConfig.tier_http := ["c"] |};
          WagmiConfig.rpc_public := None;
          WagmiConfig.rpc_fallback := Some {| WagmiConfig.tier_http := ["d"] |} |} |}.

(** The hooks of [Samples.hooks], with a router primitive that throws. *)
Definition rejecting_hooks (connected : option ChainId) : @Hooks unit unit :=
  {| account := account (Samples.hooks connected true);
     swapChainId := swapChainId (Samples.hooks connected true);
     selectChain := selectChain (Samples.hooks connected true);
     useUniswapXSwapCallback := useUniswapXSwapCallback (Samples.hooks connected true);
     useUniversalRouterSwapCallback := fun _ => inl (Error "user rejected request");
     Date_now := Date_now (Samples.hooks connected true) |}.

Definition submit_rejected (t : option InterfaceTrade) (connected : option ChainId)
  : M (@Event unit unit) SwapResult :=
  submitSwap Samples.currencyId Samples.isEVMChain Samples.useSupportedChainId
    Samples.BigNumber_from (Samples.props t) (rejecting_hooks connected).

(** The record of the limit order of [Samples.trade] on chain 1. *)
Definition limit_details : UniswapXOrderDetails :=
  {| order_id := "0xorder";
     order_chainId := 1;
     order_from := "0xabc";
     order_status := Pending;
     order_addedTime := 1699999999000;
     order_transactionOriginType := Internal;
     order_typeInfo :=
       {| type := Swap;
          inputCurrencyId := "1-ETH";
          outputCurrencyId := "1-0xa0b8";
          isUniswapXOrder := true;
          swapAmounts := ExactOutputSwapAmounts "1010" "500" "1000" |};
     order_routing := DUTCH_LIMIT;
     order_orderHash := "0xorder";
     order_queueStatus := Submitted;
     order_encodedOrder := "0xencoded";
     order_expiry := 1700000000 |}.

(** Two clients: one without a chain, one on mainnet. *)
Definition bare_client : @EthersProvider.Client string :=
  {| EthersProvider.client_ref := 1;
     EthersProvider.chain := None;
     EthersProvider.transport := "bare" |}.

Definition mainnet_client : @EthersProvider.Client string :=
  {| EthersProvider.client_ref := 2;
     EthersProvider.chain :=
       Some {| EthersProvider.id := 1;
               EthersProvider.name := "mainnet";
               EthersProvider.contracts :=
                 Some {| EthersProvider.ensRegistry :=
                           Some {| EthersProvider.contract_address := "0xens" |} |} |};
     EthersProvider.transport := "main" |}.

End MoreSamples.

(** * Properties *)

(** ** The transport resolver *)

Section TransportResolver.

Import WagmiConfig.

Lemma foldl_Set_add (xs s : list string) :
  foldl Set_add s xs = s ++ first_occurrences s xs.
Proof.
  revert s. induction xs as [|x xs IH]; intros s; simpl.
  - by rewrite app_nil_r.
  - unfold Set_add at 2. destruct (decide (x ∈ s)); rewrite IH; [done|].
    by rewrite <- app_assoc.
Qed.

Lemma new_Set_first_occurrences (xs : list string) :
  new_Set xs = first_occurrences [] xs.
Proof. unfold new_Set. by rewrite foldl_Set_add. Qed.

Lemma elem_of_first_occurrences (xs seen : list string) (u : string) :
  u ∈ first_occurrences seen xs ↔ u ∈ xs ∧ u ∉ seen.
Proof.
  revert seen. induction xs as [|x xs IH]; intros seen; simpl.
  - rewrite elem_of_nil. tauto.
  - destruct (decide (x ∈ seen)) as [Hin|Hout].
    + rewrite IH, elem_of_cons. split; [tauto|].
      intros [[->|H] Hn]; [contradiction|tauto].
    + rewrite !elem_of_cons, IH, elem_of_app, list_elem_of_singleton.
      destruct (decide (u = x)) as [->|Hne]; [tauto|]. tauto.
Qed.

Lemma NoDup_first_occurrences (xs seen : list string) :
  NoDup (first_occurrences seen xs).
Proof.
  revert seen. induction xs as [|x xs IH]; intros seen; simpl.
  - constructor.
  - destruct (decide (x ∈ seen)); [apply IH|].
    constructor; [|apply IH].
    rewrite elem_of_first_occurrences, elem_of_app, list_elem_of_singleton. tauto.
Qed.

Lemma elem_of_filter_Boolean (l : list string) (u : string) :
  u ∈ List.filter Boolean l ↔ u ∈ l ∧ u ≠ "".
Proof.
  rewrite !list_elem_of_In, filter_In. unfold Boolean, truthy_string.
  by rewrite bool_decide_eq_true.
Qed.

Lemma indexOf_None (x : string) (l : list string) :
  indexOf x l = None ↔ x ∉ l.
Proof.
  induction l as [|y l IH]; simpl.
  - split; [intros _; apply not_elem_of_nil | done].
  - rewrite not_elem_of_cons. destruct (decide (x = y)) as [->|Hne].
    + split; [done | tauto].
    + rewrite fmap_None, IH. tauto.
Qed.

Lemma indexOf_Some_lt (x : string) (l : list string) (i : nat) :
  indexOf x l = Some i → (i < length l)%nat.
Proof.
  revert i. induction l as [|y l IH]; intros i; simpl; [done|].
  destruct (decide (x = y)).
  - intros [= <-]. lia.
  - destruct (indexOf x l) as [k|]; simpl; [|done].
    intros [= <-]. specialize (IH k eq_refl). lia.
Qed.

Lemma indexOf_app (x : string) (l1 l2 : list string) :
  indexOf x (l1 ++ l2) =
  match indexOf x l1 with
  | Some i => Some i
  | None => (fun k => length l1 + k)%nat <$> indexOf x l2
  end.
Proof.
  induction l1 as [|y l1 IH]; simpl.
  - by destruct (indexOf x l2).
  - destruct (decide (x = y)); [done|]. rewrite IH.
    destruct (indexOf x l1); [done|]. by destruct (indexOf x l2).
Qed.

(** The order of the output is the order of first occurrences in the
    unfiltered input. *)
Lemma first_occurrences_order (l seen : list string) (i j : nat) (x y : string) :
  (i < j)%nat →
  first_occurrences seen (List.filter Boolean l) !! i = Some x →
  first_occurrences seen (List.filter Boolean l) !! j = Some y →
  ∃ a b, indexOf x l = Some a ∧ indexOf y l = Some b ∧ (a < b)%nat.
Proof.
  revert seen i j. induction l as [|z l IH]; intros seen i j Hij; simpl; [done|].
  assert (Hskip : ∀ s w k, first_occurrences s (List.filter Boolean l) !! k = Some w →
                           z ∈ s ∨ Boolean z = false → w ≠ z).
  { intros s w k Hk Hz ->. apply list_elem_of_lookup_2 in Hk.
    apply elem_of_first_occurrences in Hk as [Hk Hs].
    apply elem_of_filter_Boolean in Hk as [_ Hk].
    destruct Hz as [Hz|Hz]; [done|].
    unfold Boolean, truthy_string in Hz. apply bool_decide_eq_false in Hz. tauto. }
  assert (Hshift : ∀ s i' j', (i' < j')%nat → z ∈ s ∨ Boolean z = false →
            first_occurrences s (List.filter Boolean l) !! i' = Some x →
            first_occurrences s (List.filter Boolean l) !! j' = Some y →
            ∃ a b, (if decide (x = z) then Some 0%nat else S <$> indexOf x l) = Some a
                   ∧ (if decide (y = z) then Some 0%nat else S <$> indexOf y l) = Some b
                   ∧ (a < b)%nat).
  { intros s i' j' Hlt Hz Hx Hy.
    destruct (IH s i' j' Hlt Hx Hy) as (a & b & Ha & Hb & Hab).
    exists (S a), (S b).
    rewrite !decide_False by eauto. rewrite Ha, Hb. simpl. repeat split; lia. }
  destruct (Boolean z) eqn:Hz; simpl; [|by apply Hshift; [|right]].
  destruct (decide (z ∈ seen)) as [Hin|Hout]; [by apply Hshift; [|left]|].
  destruct i as [|i], j as [|j]; simpl; try lia.
  - intros [= <-] Hy.
    assert (y ≠ z) as Hne.
    { eapply Hskip; [exact Hy|]. left. rewrite elem_of_app, list_elem_of_singleton. tauto. }
    apply list_elem_of_lookup_2, elem_of_first_occurrences in Hy as Hy'.
    destruct Hy' as [Hy' _]. apply elem_of_filter_Boolean in Hy' as [Hy' _].
    destruct (indexOf y l) as [b|] eqn:Hb; [|by apply indexOf_None in Hb].
    exists 0%nat, (S b). rewrite decide_True by done. rewrite decide_False by done.
    simpl. repeat split; lia.
  - apply Hshift; [lia|]. left. rewrite elem_of_app, list_elem_of_singleton. tauto.
Qed.

Lemma tier_position_concat (ts : list (list string)) (x y : string) (a b : nat) :
  indexOf x (concat ts) = Some a → indexOf y (concat ts) = Some b → (a < b)%nat →
  ∃ p q, tier_position x ts = Some p ∧ tier_position y ts = Some q ∧ position_lt p q.
Proof.
  revert a b. induction ts as [|t ts IH]; intros a b; simpl; [done|].
  rewrite !indexOf_app.
  destruct (indexOf x t) as [i|] eqn:Hx, (indexOf y t) as [k|] eqn:Hy.
  - intros [= <-] [= <-] Hab. exists (0%nat, i), (0%nat, k).
    repeat split. right. simpl. lia.
  - intros [= <-] Hb Hab.
    destruct (indexOf y (concat ts)) as [b'|] eqn:Hb'; [|done].
    assert (is_Some (tier_position y ts)) as [q Hq].
    { clear -Hb'. revert b' Hb'. induction ts as [|t' ts IHts]; intros b' Hb'; simpl in *; [done|].
      rewrite indexOf_app in Hb'. destruct (indexOf y t'); [eauto|].
      destruct (indexOf y (concat ts)) as [c|]; [|done].
      destruct (IHts c eq_refl) as [q ->]. simpl. eauto. }
    rewrite Hq. simpl. exists (0%nat, i), (S (fst q), snd q).
    repeat split. left. simpl. lia.
  - intros Ha [= <-] Hab. apply indexOf_Some_lt in Hy.
    destruct (indexOf x (concat ts)); simplify_eq/=. lia.
  - destruct (indexOf x (concat ts)) as [a'|] eqn:Ha'; [|done].
    destruct (indexOf y (concat ts)) as [b'|] eqn:Hb'; [|done].
    simpl. intros [= <-] [= <-] Hab.
    destruct (IH a' b' eq_refl eq_refl) as (p & q & -> & -> & Hpq); [lia|].
    exists (S (fst p), snd p), (S (fst q), snd q). repeat split.
    unfold position_lt in *. simpl. lia.
Qed.

Lemma orderedRpcUrls_concat (chain : Chain) :
  orderedRpcUrls chain = concat (tiers chain).
Proof. unfold orderedRpcUrls, tiers. simpl. by rewrite app_nil_r. Qed.

(** C6. For every chain, the URLs that [orderedTransportUrls] returns hold
    no duplicate; they are exactly the non-empty URLs of the four tiers;
    and they stand in the order of their first occurrences: of two URLs of
    the output, the earlier one first occurs in a tier of higher priority
    (interface, default, public, fallback), or in the same tier at an
    earlier position. *)
Theorem orderedTransportUrls_unique_in_tier_order (chain : Chain) :
  NoDup (orderedTransportUrls chain)
  ∧ (∀ u, u ∈ orderedTransportUrls chain ↔ u ∈ orderedRpcUrls chain ∧ u ≠ "")
  ∧ (∀ (i j : nat) (x y : string),
       (i < j)%nat →
       orderedTransportUrls chain !! i = Some x →
       orderedTransportUrls chain !! j = Some y →
       ∃ p q, tier_position x (tiers chain) = Some p
              ∧ tier_position y (tiers chain) = Some q
              ∧ position_lt p q).
Proof.
  unfold orderedTransportUrls, Array_from. rewrite new_Set_first_occurrences.
  split; [apply NoDup_first_occurrences|]. split.
  - intros u. rewrite elem_of_first_occurrences, elem_of_filter_Boolean.
    split; [tauto|]. intros Hu. split; [done|]. apply not_elem_of_nil.
  - intros i j x y Hij Hx Hy.
    destruct (first_occurrences_order _ _ _ _ _ _ Hij Hx Hy) as (a & b & Ha & Hb & Hab).
    rewrite orderedRpcUrls_concat in Ha, Hb.
    eapply tier_position_concat; eauto.
Qed.

End TransportResolver.

(** ** The response hook and the client factory *)

Section ClientFactory.

Import WagmiConfig.

Variable isTestnetChain : Z → bool.

(** C7. The response hook never throws: it returns normally on every
    response. On a status other than 200 it makes exactly one logger call,
    a warning when the chain is a testnet and an error otherwise, and that
    call carries the chain id and the URL as its structured context. (On
    status 200 it makes no call.) *)
Theorem defaultOnFetchResponse_logs_once_never_throws
    (response : Response) (chain : Chain) (url : string) :
  let hook := defaultOnFetchResponse isTestnetChain response chain url in
  outcome hook = inr tt
  ∧ (status response = 200 → trace hook = [])
  ∧ (status response ≠ 200 →
     ∃ call, trace hook = [call]
             ∧ is_warn call = isTestnetChain (id chain)
             ∧ is_error call = negb (isTestnetChain (id chain))
             ∧ extra_of call = {| extra_chainId := id chain; extra_url := url |}).
Proof.
  unfold defaultOnFetchResponse. cbv zeta. case_bool_decide as Hs.
  - destruct (isTestnetChain (id chain)); simpl;
      (split; [done|]; split; [done|]; intros _; eexists; by repeat split).
  - simpl. split; [done|]. split; [done|]. intros Hne. by destruct Hne.
Qed.

(** C9. The client built for a chain has multicall batching on, a polling
    interval of 12000 ms, and a fallback transport with one HTTP transport
    per URL of [orderedTransportUrls chain], in that order, each reporting
    its responses to the hook with this chain and its own URL. *)
Theorem createWagmiConfig_client_configuration
    (onFetchResponse : option (Response → Chain → string → M LogCall unit))
    (chain : Chain) :
  let client := createWagmiConfig_client isTestnetChain onFetchResponse chain in
  WagmiConfig.chain client = chain
  ∧ multicall (batch client) = true
  ∧ pollingInterval client = 12000
  ∧ map WagmiConfig.url (transports (transport client)) = orderedTransportUrls chain
  ∧ Forall (λ t, ∀ response,
              WagmiConfig.onFetchResponse t response =
              default (defaultOnFetchResponse isTestnetChain) onFetchResponse
                response chain (WagmiConfig.url t))
           (transports (transport client)).
Proof.
  cbv zeta. unfold createWagmiConfig_client, createClient, fallback. simpl.
  repeat split.
  - rewrite map_map. simpl. apply map_id.
  - apply Forall_forall. intros t Ht.
    apply list_elem_of_In, in_map_iff in Ht as (u & <- & _). done.
Qed.

End ClientFactory.

(** ** The fee descriptor and the status lookup *)

Section FeeAndStatus.

Import SwapCallback.

Variable BigNumber_from : string → Z.

(** C5. [getUniversalRouterFeeFields] returns nothing when the trade is
    absent, is not classic, or carries no fee. For a classic trade with a
    fee it returns, when the trade is EXACT_INPUT, the percentage shape
    alone (the fee's percent and recipient) and, when it is EXACT_OUTPUT,
    the flat shape alone (the fee's amount and recipient). It never returns
    both shapes, and never an object with neither. *)
Theorem getUniversalRouterFeeFields_shapes (trade : option InterfaceTrade) :
  let fields := getUniversalRouterFeeFields BigNumber_from trade in
  (fields = None ↔
     isClassicTrade trade = false ∨ ∃ t, trade = Some t ∧ swapFee t = None)
  ∧ (∀ t f, trade = Some t → variant t = ClassicTrade → swapFee t = Some f →
       tradeType t = EXACT_INPUT →
       fields = Some {| feeOptions := Some {| fee := fee_percent f;
                                              recipient := fee_recipient f |};
                        flatFeeOptions := None |})
  ∧ (∀ t f, trade = Some t → variant t = ClassicTrade → swapFee t = Some f →
       tradeType t = EXACT_OUTPUT →
       fields = Some {| feeOptions := None;
                        flatFeeOptions :=
                          Some {| amount := BigNumber_from (fee_amount f);
                                  flat_recipient := fee_recipient f |} |})
  ∧ (∀ d, fields = Some d →
       (is_Some (feeOptions d) ∧ flatFeeOptions d = None)
       ∨ (feeOptions d = None ∧ is_Some (flatFeeOptions d))).
Proof.
  cbv zeta. unfold getUniversalRouterFeeFields, isClassicTrade.
  destruct trade as [t|]; simpl.
  2:{ split; [naive_solver|]. repeat split; intros; simplify_eq. }
  destruct (variant t) eqn:Hv, (swapFee t) as [f|] eqn:Hf, (tradeType t) eqn:Ht; simpl;
    (split; [split; [try done; eauto | intros [?|(t' & ? & ?)]; simplify_eq; try done] |]);
    (repeat split; intros; simplify_eq; eauto; congruence).
Qed.

(** C8. [useSwapTransactionStatus] returns a status exactly when the
    result is classic and the store holds a record under its transaction
    hash, and the status is that record's; a classic result without such a
    record, a UniswapX result (whatever the store holds) and an absent
    result give [undefined]. *)
Theorem useSwapTransactionStatus_classic_only
    (store : gmap string InterfaceTransactionDetails) (swapResult : option SwapResult) :
  (∀ s, useSwapTransactionStatus store swapResult = Some s ↔
        ∃ r record, swapResult = Some (ClassicResult r)
                    ∧ store !! hash (classic_response r) = Some record
                    ∧ tx_status record = s)
  ∧ (∀ r, swapResult = Some (ClassicResult r) →
          store !! hash (classic_response r) = None →
          useSwapTransactionStatus store swapResult = None)
  ∧ (∀ r, swapResult = Some (UniswapXResult r) →
          useSwapTransactionStatus store swapResult = None)
  ∧ (swapResult = None → useSwapTransactionStatus store swapResult = None).
Proof.
  unfold useSwapTransactionStatus, useTransaction. repeat split.
  - destruct swapResult as [[r|r]|]; try done.
    destruct (store !! hash (classic_response r)) as [record|] eqn:Hl; [|done].
    intros [= <-]. eauto.
  - intros (r & record & -> & Hl & <-). by rewrite Hl.
  - intros r -> Hl. by rewrite Hl.
  - by intros r ->.
  - by intros ->.
Qed.

End FeeAndStatus.

(** ** The swap callback *)

Section SwapOrchestrator.

Import SwapCallback.

Context {FiatValues PermitSignature : Type}.
Variable currencyId : Currency → string.
Variable isEVMChain : ChainId → bool.
Variable useSupportedChainId : option ChainId → option ChainId.
Variable BigNumber_from : string → Z.

Local Abbreviation Props := (@Props FiatValues PermitSignature).
Local Abbreviation Hooks := (@Hooks FiatValues PermitSignature).
Local Abbreviation Event := (@Event FiatValues PermitSignature).
Local Abbreviation validate := (validate isEVMChain useSupportedChainId).
Local Abbreviation swapCallback := (swapCallback BigNumber_from).
Local Abbreviation submitSwap :=
  (submitSwap currencyId isEVMChain useSupportedChainId BigNumber_from).
Local Abbreviation check_passes := (check_passes isEVMChain useSupportedChainId).
Local Abbreviation first_failing := (first_failing isEVMChain useSupportedChainId).
Local Abbreviation connectedChain := (supportedConnectedChainId useSupportedChainId).
Local Abbreviation differs_from_target := (differs_from_target useSupportedChainId).

Lemma count_app (f : Event → bool) (l k : list Event) :
  count f (l ++ k) = (count f l + count f k)%nat.
Proof. unfold count. by rewrite List.filter_app, length_app. Qed.

(** Once the target chain is truthy, the condition the code tests says
    that the connected chain is not the target. *)
Lemma differs_from_target_iff (h : Hooks) (target : ChainId) :
  truthy_number target = true →
  differs_from_target h target = true ↔ connectedChain h ≠ Some target.
Proof.
  unfold SwapCallback.differs_from_target, truthy_number.
  rewrite bool_decide_eq_true. intros Ht.
  rewrite orb_true_iff, negb_true_iff, bool_decide_eq_true.
  split; [|tauto]. intros [Hf|Hne]; [|done]. intros Heq.
  rewrite Heq in Hf. simpl in Hf. unfold truthy_number in Hf.
  by apply bool_decide_eq_false in Hf.
Qed.

(** What the precondition chain does, by the first check that fails. *)
Lemma validate_first_failing (p : Props) (h : Hooks) :
  match first_failing p h with
  | Some c =>
      ∃ tr, validate p h = (tr, inl (check_error c))
            ∧ (c ≠ ChainMatches → tr = [])
            ∧ (c = ChainMatches →
               ∃ target, swapChainId h = Some target
                         ∧ tr = [selectChain_call target false])
  | None =>
      ∃ t addr target,
        trade p = Some t ∧ address (account h) = Some addr
        ∧ swapChainId h = Some target
        ∧ validate p h =
            ((if differs_from_target h target
              then [selectChain_call target true] else []),
             inr (t, addr, target))
  end.
Proof.
  unfold SwapCallback.first_failing, SwapCallback.validate, checks. simpl.
  destruct (trade p) as [t|]; simpl; [|by eexists; repeat split; eauto].
  destruct (address (account h)) as [addr|]; simpl.
  2:{ rewrite andb_false_r. simpl. by eexists; repeat split; eauto. }
  destruct (isConnected (account h)), (truthy_string addr); simpl.
  2-4: by eexists; repeat split; eauto.
  destruct (swapChainId h) as [target|]; simpl;
    [|by eexists; repeat split; eauto].
  destruct (truthy_number target); simpl; [|by eexists; repeat split; eauto].
  destruct (isEVMChain target); simpl; [|by eexists; repeat split; eauto].
  fold (differs_from_target h target).
  destruct (differs_from_target h target) eqn:Hd; simpl.
  - unfold call_selectChain. destruct (selectChain h target); simpl.
    + exists t, addr, target. by rewrite Hd.
    + eexists. split; [done|]. split; [done|]. intros _. by exists target.
  - exists t, addr, target. by rewrite Hd.
Qed.

(** The submission step calls exactly one primitive: the UniswapX one for
    a UniswapX trade, the router one otherwise. *)
Lemma swapCallback_one_call (p : Props) (h : Hooks) :
  ∃ sub, trace (swapCallback p h) = [sub]
         ∧ is_submission sub = true
         ∧ match outcome (swapCallback p h) with
           | inl _ => True
           | inr (UniswapXResult _) => isUniswapXTrade (trade p) = true
           | inr (ClassicResult _) => isUniswapXTrade (trade p) = false
           end.
Proof.
  unfold SwapCallback.swapCallback, uniswapXSwapCallback, universalRouterSwapCallback.
  destruct (isUniswapXTrade (trade p)); simpl.
  - destruct (useUniswapXSwapCallback h _); simpl; eauto.
  - destruct (useUniversalRouterSwapCallback h _); simpl; eauto.
Qed.

(** The recording step never throws, and writes nothing but records. *)
Lemma record_writes (h : Hooks) t addr target info result :
  outcome (record h t addr target info result) = inr tt
  ∧ Forall (λ ev, is_record_write ev = true) (trace (record h t addr target info result)).
Proof.
  unfold record. destruct result as [r|r]; simpl.
  - split; [done|]. by repeat constructor.
  - destruct (variant t); simpl; (split; [done|]); by repeat constructor.
Qed.

(** The whole callback, once the preconditions hold. *)
Lemma submitSwap_after_validate (p : Props) (h : Hooks) pre t addr target sub :
  validate p h = (pre, inr (t, addr, target)) →
  trace (swapCallback p h) = [sub] →
  submitSwap p h =
    match outcome (swapCallback p h) with
    | inl e => (pre ++ [sub], inl e)
    | inr result =>
        (pre ++ sub ::
           trace (record h t addr target
                    (swapInfo currencyId t (allowedSlippage p) result) result),
         inr result)
    end.
Proof.
  intros Hv Hs. unfold SwapCallback.submitSwap. rewrite Hv. simpl.
  destruct (swapCallback p h) as [s [e|result]]; simpl in *; subst s; [done|].
  pose proof (record_writes h t addr target
                (swapInfo currencyId t (allowedSlippage p) result) result) as [Ho _].
  destruct (record _ _ _ _ _ _) as [w [e|[]]]; simpl in *; [done|].
  by rewrite app_nil_r.
Qed.

(** The trace of a run that passed the preconditions: the switch part,
    the one submission call, then the record writes. *)
Lemma submitSwap_trace_after_validate (p : Props) (h : Hooks) pre t addr target :
  validate p h = (pre, inr (t, addr, target)) →
  ∃ sub writes,
    trace (submitSwap p h) = pre ++ sub :: writes
    ∧ is_submission sub = true
    ∧ Forall (λ ev, is_record_write ev = true) writes.
Proof.
  intros Hv. destruct (swapCallback_one_call p h) as (sub & Hs & Hsub & _).
  rewrite (submitSwap_after_validate p h pre t addr target sub Hv Hs).
  destruct (outcome (swapCallback p h)) as [e|result]; simpl.
  - exists sub, []. by rewrite Forall_nil.
  - eexists sub, _. repeat split; [done|]. apply record_writes.
Qed.

Lemma count_writes (writes : list Event) :
  Forall (λ ev, is_record_write ev = true) writes →
  count is_switch_attempt writes = 0%nat ∧ count is_submission writes = 0%nat.
Proof.
  induction 1 as [|ev writes Hev _ [IH1 IH2]]; [done|].
  unfold count in *. simpl.
  destruct ev; simpl in *; try done.
Qed.

(** C1. When a precondition check fails, the callback throws the error of
    the first check that fails, in the order trade present, wallet
    connected, chain resolvable, chain family supported, chain matching;
    the five errors differ from one another; and by then no chain switch
    has taken place, no submission primitive has been called and no record
    has been written. For the first four checks no collaborator has been
    called at all; for the fifth the only call is the switch request that
    did not succeed. *)
Theorem submitSwap_precondition_failure (p : Props) (h : Hooks) (c : Check) :
  first_failing p h = Some c →
  outcome (submitSwap p h) = inl (check_error c)
  ∧ (∀ c', check_error c' = check_error c → c' = c)
  ∧ count is_switch (trace (submitSwap p h)) = 0%nat
  ∧ count is_submission (trace (submitSwap p h)) = 0%nat
  ∧ count is_record_write (trace (submitSwap p h)) = 0%nat
  ∧ (c ≠ ChainMatches → trace (submitSwap p h) = [])
  ∧ (c = ChainMatches →
     ∃ target, swapChainId h = Some target
               ∧ trace (submitSwap p h) = [selectChain_call target false]).
Proof.
  intros Hc. pose proof (validate_first_failing p h) as Hv. rewrite Hc in Hv.
  destruct Hv as (tr & Hv & Hfirst & Hlast).
  assert (submitSwap p h = (tr, inl (check_error c))) as ->.
  { unfold SwapCallback.submitSwap. by rewrite Hv. }
  simpl. split; [done|]. split.
  { intros c'. by destruct c', c. }
  destruct (decide (c = ChainMatches)) as [Heq|Hne].
  - destruct (Hlast Heq) as (target & Ht & ->). repeat split; by eauto.
  - rewrite (Hfirst Hne). repeat split; by eauto.
Qed.

(** C2. Let the first four checks pass. If the connected chain is not the
    target chain, the callback requests exactly one chain switch, and it
    does so first, before any submission call: when the request does not
    succeed the callback throws [ChainSwitchFailed] and calls no submission
    primitive; when it succeeds the submission call follows it. If the
    connected chain is the target chain, no switch is requested and the
    callback goes on to the submission call. *)
Theorem submitSwap_chain_switch (p : Props) (h : Hooks) (target : ChainId) :
  check_passes p h TradePresent = true →
  check_passes p h WalletConnected = true →
  check_passes p h ChainResolvable = true →
  check_passes p h ChainFamilySupported = true →
  swapChainId h = Some target →
  (connectedChain h ≠ Some target →
     count is_switch_attempt (trace (submitSwap p h)) = 1%nat
     ∧ (∃ rest, trace (submitSwap p h) =
                selectChain_call target (selectChain h target) :: rest)
     ∧ (selectChain h target = false →
          outcome (submitSwap p h) = inl ChainSwitchFailed
          ∧ count is_submission (trace (submitSwap p h)) = 0%nat)
     ∧ (selectChain h target = true →
          ∃ sub rest, trace (submitSwap p h) = selectChain_call target true :: sub :: rest
                      ∧ is_submission sub = true
                      ∧ count is_submission (trace (submitSwap p h)) = 1%nat))
  ∧ (connectedChain h = Some target →
     count is_switch_attempt (trace (submitSwap p h)) = 0%nat
     ∧ ∃ sub rest, trace (submitSwap p h) = sub :: rest ∧ is_submission sub = true).
Proof.
  intros H1 H2 H3 H4 Ht.
  pose proof (validate_first_failing p h) as Hv.
  unfold SwapCallback.first_failing, checks in Hv. cbn [List.find] in Hv.
  rewrite H1, H2, H3, H4 in Hv. simpl in Hv. rewrite Ht in Hv.
  fold (differs_from_target h target) in Hv.
  assert (truthy_number target = true) as Htruthy.
  { simpl in H3. by rewrite Ht in H3. }
  pose proof (differs_from_target_iff h target Htruthy) as Hiff.
  destruct (differs_from_target h target) eqn:Hd; simpl in Hv.
  - split; [intros _ | intros Heq; by apply Hiff in Heq].
    destruct (selectChain h target) eqn:Hsel; simpl in Hv.
    + destruct Hv as (t & addr & target' & _ & _ & [= <-] & Hv). rewrite Hd in Hv.
      destruct (submitSwap_trace_after_validate _ _ _ _ _ _ Hv)
        as (sub & writes & Htr & Hsub & Hw).
      destruct (count_writes _ Hw) as [Hw1 Hw2].
      assert (is_switch_attempt sub = false) as Hns by (by destruct sub).
      rewrite Htr. unfold count in *. simpl. rewrite Hsub, Hns. simpl.
      rewrite Hw1, Hw2.
      split; [done|]. split; [by eexists|]. split; [done|].
      intros _. by exists sub, writes.
    + destruct Hv as (tr & Hv & _ & Hlast).
      destruct (Hlast eq_refl) as (target' & [= <-] & ->).
      assert (submitSwap p h = ([selectChain_call target false], inl ChainSwitchFailed))
        as -> by (unfold SwapCallback.submitSwap; by rewrite Hv).
      simpl. split; [done|]. split; [by eexists|]. by split.
  - split; [intros Hne; apply Hiff in Hne; congruence | intros _].
    destruct Hv as (t & addr & target' & _ & _ & [= <-] & Hv). rewrite Hd in Hv.
    destruct (submitSwap_trace_after_validate _ _ _ _ _ _ Hv)
      as (sub & writes & Htr & Hsub & Hw).
    destruct (count_writes _ Hw) as [Hw1 Hw2].
    assert (is_switch_attempt sub = false) as Hns by (by destruct sub).
    rewrite Htr. unfold count in *. simpl. rewrite Hns.
    split; [done|]. by exists sub, writes.
Qed.

(** A run either throws before anything is recorded, or passes the
    preconditions, gets a result from the submission primitive and records
    it. *)
Lemma submitSwap_cases (p : Props) (h : Hooks) :
  (∃ e, outcome (submitSwap p h) = inl e
        ∧ Forall (λ ev, is_record_write ev = false) (trace (submitSwap p h)))
  ∨ (∃ t addr target sub result,
       trade p = Some t ∧ address (account h) = Some addr
       ∧ swapChainId h = Some target
       ∧ is_submission sub = true
       ∧ outcome (swapCallback p h) = inr result
       ∧ submitSwap p h =
           ((if differs_from_target h target
             then [selectChain_call target true] else [])
            ++ sub :: trace (record h t addr target
                               (swapInfo currencyId t (allowedSlippage p) result) result),
            inr result)).
Proof.
  pose proof (validate_first_failing p h) as Hv.
  destruct (first_failing p h) as [c|].
  - left. destruct Hv as (tr & Hv & Hfirst & Hlast). exists (check_error c).
    assert (submitSwap p h = (tr, inl (check_error c))) as ->
      by (unfold SwapCallback.submitSwap; by rewrite Hv).
    split; [done|]. simpl. destruct (decide (c = ChainMatches)) as [Heq|Hne].
    + destruct (Hlast Heq) as (target & _ & ->). by repeat constructor.
    + rewrite (Hfirst Hne). constructor.
  - destruct Hv as (t & addr & target & Ht & Ha & Hc & Hv).
    destruct (swapCallback_one_call p h) as (sub & Hs & Hsub & _).
    pose proof (submitSwap_after_validate p h _ t addr target sub Hv Hs) as Hrun.
    destruct (outcome (swapCallback p h)) as [e|result] eqn:Ho.
    + left. exists e. rewrite Hrun. split; [done|]. simpl.
      apply Forall_app. split.
      * destruct (differs_from_target h target); by repeat constructor.
      * constructor; [by destruct sub | constructor].
    + right. by exists t, addr, target, sub, result.
Qed.

(** C3. After a successful submission: for a limit order the result is a
    UniswapX one and the only record write is one dispatch to the store,
    of a record whose id and order hash are the result's order hash, with
    status Pending, queue status Submitted, internal origin, routing
    DUTCH_LIMIT, and the encoded order and expiry of the result; the
    transaction adder is not called. For a classic result the only record
    write is one call of the transaction adder with the response, the
    amount summary and the optional deadline; nothing is dispatched to the
    store. For a UniswapX result of a trade that is not a limit order
    nothing is written. *)
Theorem submitSwap_records_result (p : Props) (h : Hooks)
    (tr : list Event) (result : SwapResult) :
  submitSwap p h = (tr, inr result) →
  ∃ t addr target,
    trade p = Some t ∧ address (account h) = Some addr ∧ swapChainId h = Some target
    ∧ (isLimitTrade (Some t) = true →
       ∃ r details,
         result = UniswapXResult r
         ∧ List.filter is_record_write tr = [dispatch_addTransaction details]
         ∧ count is_store_append tr = 1%nat
         ∧ count is_tracker_add tr = 0%nat
         ∧ order_id details = orderHash (uniswapx_response r)
         ∧ order_orderHash details = orderHash (uniswapx_response r)
         ∧ order_status details = Pending
         ∧ order_queueStatus details = Submitted
         ∧ order_transactionOriginType details = Internal
         ∧ order_routing details = DUTCH_LIMIT
         ∧ order_encodedOrder details = encodedOrder (uniswapx_response r)
         ∧ order_expiry details = deadline (uniswapx_response r)
         ∧ order_chainId details = target
         ∧ order_from details = addr
         ∧ order_typeInfo details = swapInfo currencyId t (allowedSlippage p) result)
    ∧ (∀ r, result = ClassicResult r →
       List.filter is_record_write tr =
         [addClassicTransaction_call (classic_response r)
            (swapInfo currencyId t (allowedSlippage p) result) (classic_deadline r)]
       ∧ count is_tracker_add tr = 1%nat
       ∧ count is_store_append tr = 0%nat)
    ∧ (∀ r, result = UniswapXResult r → isLimitTrade (Some t) = false →
       count is_record_write tr = 0%nat).
Proof.
  intros Hrun. destruct (submitSwap_cases p h) as [(e & He & _)|Hok].
  { rewrite Hrun in He. done. }
  destruct Hok as (t & addr & target & sub & result' & Ht & Ha & Hc & Hsub & Ho & Hrun').
  rewrite Hrun in Hrun'. injection Hrun' as -> <-.
  exists t, addr, target. split; [done|]. split; [done|]. split; [done|].
  destruct (swapCallback_one_call p h) as (sub' & _ & _ & Hvar). rewrite Ho in Hvar.
  rewrite Ht in Hvar. unfold count.
  assert (is_submission sub = true → is_record_write sub = false
          ∧ is_store_append sub = false ∧ is_tracker_add sub = false) as Hsub'
    by (by destruct sub).
  destruct (Hsub' Hsub) as (Hs1 & Hs2 & Hs3).
  rewrite !List.filter_app. simpl. rewrite Hs1, Hs2, Hs3.
  destruct (differs_from_target h target); simpl;
    (destruct result as [r|r]; simpl; unfold isUniswapXTrade, isLimitTrade in *;
     destruct (variant t) eqn:Hvt; simpl; try done;
     (split; [intros; try done; eexists r, _; by repeat split|]);
     (split; [intros ? [= <-]; by repeat split | by intros]) ).
Qed.

(** The amount summary of a trade, whatever the result. *)
Lemma swapInfo_amounts (t : InterfaceTrade) (slippage : Percent) (result : SwapResult) :
  let info := swapInfo currencyId t slippage result in
  (isUniswapXOrder info = true ↔
     result_type result = UniswapX ∨ result_type result = UniswapXv2)
  ∧ amounts_tradeType (swapAmounts info) = tradeType t
  ∧ match tradeType t with
    | EXACT_INPUT =>
        swapAmounts info =
          ExactInputSwapAmounts
            (toString (quotient (inputAmount t)))
            (toString (quotient (outputAmount t)))
            (toString (quotient (outputAmount t)
                       * (denominator slippage - numerator slippage)
                       / denominator slippage))
    | EXACT_OUTPUT =>
        swapAmounts info =
          ExactOutputSwapAmounts
            (toString (quotient (inputAmount t)
                       * (denominator slippage + numerator slippage)
                       / denominator slippage))
            (toString (quotient (outputAmount t)))
            (toString (quotient (inputAmount t)))
    end.
Proof.
  cbv zeta. unfold swapInfo. simpl. split.
  - rewrite orb_true_iff, !bool_decide_eq_true. done.
  - by destruct (tradeType t).
Qed.

(** C4. The amount summary that a run records (with the transaction adder
    or in the limit order record) is the one built from the trade and the
    result of that run. Its off-chain flag is set exactly when the result
    is a UniswapX or UniswapXv2 one. It is tagged with the trade type: for
    EXACT_INPUT it holds the input amount, the expected output amount and
    the minimum output, the expected output reduced by the slippage
    tolerance; for EXACT_OUTPUT the maximum input, the expected input
    increased by the slippage tolerance, the output amount and the
    expected input amount. *)
Theorem submitSwap_recorded_summary (p : Props) (h : Hooks) (t : InterfaceTrade)
    (ev : Event) (info : TransactionInfo) :
  trade p = Some t →
  ev ∈ trace (submitSwap p h) →
  recorded_info ev = Some info →
  ∃ result,
    outcome (submitSwap p h) = inr result
    ∧ info = swapInfo currencyId t (allowedSlippage p) result
    ∧ (isUniswapXOrder info = true ↔
         result_type result = UniswapX ∨ result_type result = UniswapXv2)
    ∧ amounts_tradeType (swapAmounts info) = tradeType t
    ∧ match tradeType t with
      | EXACT_INPUT =>
          swapAmounts info =
            ExactInputSwapAmounts
              (toString (quotient (inputAmount t)))
              (toString (quotient (outputAmount t)))
              (toString (quotient (outputAmount t)
                         * (denominator (allowedSlippage p) - numerator (allowedSlippage p))
                         / denominator (allowedSlippage p)))
      | EXACT_OUTPUT =>
          swapAmounts info =
            ExactOutputSwapAmounts
              (toString (quotient (inputAmount t)
                         * (denominator (allowedSlippage p) + numerator (allowedSlippage p))
                         / denominator (allowedSlippage p)))
              (toString (quotient (outputAmount t)))
              (toString (quotient (inputAmount t)))
      end.
Proof.
  intros Ht Hev Hinfo.
  assert (is_record_write ev = true) as Hw by (by destruct ev).
  destruct (submitSwap_cases p h) as [(e & _ & Hnone)|Hok].
  { rewrite Forall_forall in Hnone. specialize (Hnone ev Hev). congruence. }
  destruct Hok as (t' & addr & target & sub & result & Ht' & _ & _ & Hsub & _ & Hrun).
  assert (t' = t) as -> by congruence.
  rewrite Hrun in Hev |- *. simpl in Hev |- *. exists result. split; [done|].
  assert (info = swapInfo currencyId t (allowedSlippage p) result) as ->.
  { apply elem_of_app in Hev as [Hev|Hev].
    - destruct (differs_from_target h target).
      + apply list_elem_of_singleton in Hev as ->. done.
      + by apply elem_of_nil in Hev.
    - apply elem_of_cons in Hev as [->|Hev]; [by destruct sub|].
      unfold record in Hev. destruct result as [r|r]; simpl in Hev.
      + apply list_elem_of_singleton in Hev as ->. simpl in Hinfo. congruence.
      + destruct (variant t); simpl in Hev;
          try (by apply elem_of_nil in Hev).
        apply list_elem_of_singleton in Hev as ->. simpl in Hinfo. congruence. }
  split; [done|]. apply swapInfo_amounts.
Qed.

End SwapOrchestrator.

(** ** The provider cache *)

Section ProviderCache.

Import EthersProvider.

Context {Transport : Type}.

Local Abbreviation Client := (@Client Transport).
Local Abbreviation Web3Provider := (@Web3Provider Transport).
Local Abbreviation Heap := (@Heap Transport).

(** No network: the client has no chain and the chain id is falsy. *)
Lemma network_of_None (c : Client) (cid : option Z) :
  network_of c cid = None ↔ chain c = None ∧ truthy_opt truthy_number cid = false.
Proof.
  unfold network_of. destruct (chain c); [split; [done | by intros [? _]]|].
  destruct cid as [n|]; simpl; [|done].
  destruct (truthy_number n); [split; [done | by intros [_ ?]] | done].
Qed.

(** A call either leaves the state as it is, or constructs a provider for
    a client that had none and caches it. *)
Lemma clientToProvider_step (client : option Client) (cid : option Z) (σ : Heap) :
  (clientToProvider client cid σ).2 = σ
  ∨ ∃ c n, client = Some c ∧ network_of c cid = Some n
           ∧ providers σ !! client_ref c = None
           ∧ clientToProvider client cid σ =
               (Some {| provider_ref := allocated σ;
                        provider_transport := transport c;
                        provider_network := n |},
                {| providers :=
                     <[client_ref c :=
                         {| provider_ref := allocated σ;
                            provider_transport := transport c;
                            provider_network := n |}]> (providers σ);
                   allocated := S (allocated σ) |}).
Proof.
  unfold clientToProvider. destruct client as [c|]; [|by left].
  destruct (network_of c cid) as [n|] eqn:Hn; [|by left].
  destruct (providers σ !! client_ref c) eqn:Hc; [by left|].
  right. by exists c, n.
Qed.

(** A cached provider is never replaced. *)
Lemma clientToProvider_keeps (client : option Client) (cid : option Z) (σ : Heap)
    (ref : nat) (p : Web3Provider) :
  providers σ !! ref = Some p →
  providers (clientToProvider client cid σ).2 !! ref = Some p.
Proof.
  intros Hp. destruct (clientToProvider_step client cid σ)
    as [->|(c & n & _ & _ & Hnone & ->)]; [done|].
  simpl. rewrite lookup_insert_ne; [done|]. congruence.
Qed.

(** A call that returns a provider leaves it cached for its client. *)
Lemma clientToProvider_caches (c : Client) (cid : option Z) (σ : Heap)
    (p : Web3Provider) :
  (clientToProvider (Some c) cid σ).1 = Some p →
  providers (clientToProvider (Some c) cid σ).2 !! client_ref c = Some p.
Proof.
  unfold clientToProvider. destruct (network_of c cid) as [n|]; [|done].
  destruct (providers σ !! client_ref c) eqn:Hc; simpl.
  - by intros [= <-].
  - intros [= <-]. by rewrite lookup_insert_eq.
Qed.

(** With a provider cached for a client, a call for it returns that
    provider or nothing, and constructs nothing. *)
Lemma clientToProvider_hit (c : Client) (cid : option Z) (σ : Heap)
    (p : Web3Provider) :
  providers σ !! client_ref c = Some p →
  (clientToProvider (Some c) cid σ = (Some p, σ)
   ∨ clientToProvider (Some c) cid σ = (None, σ)).
Proof.
  intros Hp. unfold clientToProvider.
  destruct (network_of c cid); [|by right]. rewrite Hp. by left.
Qed.

Lemma calls_cons (client : option Client) (cid : option Z)
    (cs : list (option Client * option Z)) (σ : Heap) :
  calls ((client, cid) :: cs) σ =
  ((client, (clientToProvider client cid σ).1,
    bool_decide (allocated (clientToProvider client cid σ).2 ≠ allocated σ))
     :: (calls cs (clientToProvider client cid σ).2).1,
   (calls cs (clientToProvider client cid σ).2).2).
Proof.
  simpl. destruct (clientToProvider client cid σ) as [r σ']. simpl.
  by destruct (calls cs σ').
Qed.

(** Through a run that starts with a provider cached for a client, every
    call for that client returns it or nothing, and constructs nothing. *)
Lemma calls_hit (cs : list (option Client * option Z)) (σ : Heap)
    (ref : nat) (p : Web3Provider) :
  providers σ !! ref = Some p →
  Forall (λ s, ∀ c, s.1.1 = Some c → client_ref c = ref →
               (s.1.2 = Some p ∨ s.1.2 = None) ∧ s.2 = false)
         (calls cs σ).1.
Proof.
  revert σ. induction cs as [|[client cid] cs IH]; intros σ Hp; [constructor|].
  rewrite calls_cons. simpl. constructor.
  - simpl. intros c -> Href. subst ref.
    destruct (clientToProvider_hit c cid σ p Hp) as [-> | ->]; simpl;
      (split; [tauto|]); by rewrite bool_decide_eq_false; intros [].
  - apply IH. by apply clientToProvider_keeps.
Qed.

Lemma constructions_hit (cs : list (option Client * option Z)) (σ : Heap)
    (ref : nat) (p : Web3Provider) :
  providers σ !! ref = Some p → constructions ref (calls cs σ).1 = 0%nat.
Proof.
  intros Hp. pose proof (calls_hit cs σ ref p Hp) as Hall. unfold constructions.
  induction Hall as [|s l Hs _ IHl]; [done|]. simpl.
  destruct s as [[[c1|] r] [|]]; simpl in *; try done.
  case_bool_decide as Hc1; [|done].
  by destruct (Hs c1 eq_refl Hc1) as [_ ?].
Qed.

(** C10. [clientToProvider] returns nothing exactly when no client is
    given or no network can be made from the client's chain or the chain
    id. Otherwise it is memoized by client: in any sequence of calls, two
    calls for the same client that return a provider return the same
    instance; at most one of the calls for a client constructs a provider;
    and calling again at once gives the same result and leaves the state
    as it is. *)
Theorem clientToProvider_memoized :
  (∀ (client : option Client) (cid : option Z) (σ : Heap),
     (clientToProvider client cid σ).1 = None ↔
     client = None
     ∨ ∃ c, client = Some c ∧ chain c = None ∧ truthy_opt truthy_number cid = false)
  ∧ (∀ (cs : list (option Client * option Z)) (σ : Heap) (i j : nat)
       (c c' : Client) (p q : Web3Provider) (b b' : bool),
       (i < j)%nat →
       (calls cs σ).1 !! i = Some (Some c, Some p, b) →
       (calls cs σ).1 !! j = Some (Some c', Some q, b') →
       client_ref c = client_ref c' →
       p = q)
  ∧ (∀ (cs : list (option Client * option Z)) (σ : Heap) (ref : nat),
       (constructions ref (calls cs σ).1 ≤ 1)%nat)
  ∧ (∀ (client : option Client) (cid : option Z) (σ : Heap),
       clientToProvider client cid (clientToProvider client cid σ).2 =
       ((clientToProvider client cid σ).1, (clientToProvider client cid σ).2)).
Proof.
  repeat split.
  - unfold clientToProvider. destruct client as [c|]; [|by left].
    destruct (network_of c cid) as [n|] eqn:Hn.
    + by destruct (providers σ !! client_ref c).
    + intros _. right. exists c. by apply network_of_None in Hn as [? ?].
  - intros [->|(c & -> & Hn)]; [done|]. unfold clientToProvider.
    by rewrite (proj2 (network_of_None c cid) Hn).
  - intros cs. induction cs as [|[client cid] cs IH]; intros σ i j c c' p q b b' Hij;
      [done|].
    rewrite calls_cons. simpl. destruct j as [|j]; [lia|]. destruct i as [|i]; simpl.
    + intros [= -> Hr _] Hj Href.
      apply clientToProvider_caches in Hr.
      pose proof (calls_hit cs _ _ _ Hr) as Hall.
      rewrite Forall_forall in Hall.
      apply list_elem_of_lookup_2 in Hj.
      destruct (Hall _ Hj c' eq_refl (eq_sym Href)) as [[Hq|Hq] _];
        simpl in Hq; congruence.
    + apply IH. lia.
  - intros cs. induction cs as [|[client cid] cs IH]; intros σ ref;
      [unfold constructions; simpl; lia|].
    rewrite calls_cons. unfold constructions in *. cbn [fst List.filter].
    destruct (constructs_for ref (client, _, _)) eqn:Hstep; [|apply IH].
    destruct client as [c|]; [|done]. unfold constructs_for in Hstep.
    case_bool_decide as Halloc; [|done]. apply bool_decide_eq_true in Hstep.
    destruct (clientToProvider_step (Some c) cid σ)
      as [Hsame|(c0 & n & [= <-] & _ & _ & Hrun)]; [by rewrite Hsame in Halloc|].
    assert (providers (clientToProvider (Some c) cid σ).2 !! ref
            = Some {| provider_ref := allocated σ; provider_transport := transport c;
                      provider_network := n |}) as Hcached.
    { rewrite Hrun. simpl. subst ref. by rewrite lookup_insert_eq. }
    pose proof (constructions_hit cs _ _ _ Hcached) as Hzero.
    unfold constructions in Hzero. cbn [length]. rewrite Hzero. lia.
  - intros client cid σ.
    destruct (clientToProvider_step client cid σ)
      as [Hsame|(c & n & -> & Hn & Hnone & Hrun)].
    + destruct (clientToProvider client cid σ) as [r σ'] eqn:Hrun.
      simpl in Hsame |- *. by subst σ'.
    + rewrite Hrun. simpl. unfold clientToProvider. rewrite Hn. simpl.
      by rewrite lookup_insert_eq.
Qed.

End ProviderCache.

(** ** The definitions at sample values *)

Section Checks.

Import SwapCallback.

Example orderedTransportUrls_sample :
  WagmiConfig.orderedTransportUrls Samples.chain = ["b"; "a"; "c"; "d"].
Proof. reflexivity. Qed.

Example defaultOnFetchResponse_sample :
  WagmiConfig.defaultOnFetchResponse (λ c, bool_decide (c = 11155111))
    {| WagmiConfig.status := 429 |} Samples.chain "b"
  = ([WagmiConfig.logger_error (Error "RPC provider returned non-200 status: 429")
        {| WagmiConfig.extra_chainId := 1; WagmiConfig.extra_url := "b" |}
        {| WagmiConfig.tag_file := "wagmiConfig.ts";
           WagmiConfig.tag_function := "client" |}],
     inr tt).
Proof. vm_compute. reflexivity. Qed.

Example minimumAmountOut_sample :
  quotient (minimumAmountOut (Samples.trade ClassicTrade EXACT_INPUT) Samples.one_percent)
  = 495.
Proof. reflexivity. Qed.

Example submit_classic_sample :
  trace (Samples.submit (Some (Samples.trade ClassicTrade EXACT_INPUT)) (Some 10) true)
  = [ selectChain_call 1 true;
      universalRouterSwapCallback_call
        {| ur_trade := Some (Samples.trade ClassicTrade EXACT_INPUT);
           ur_fiatValues := ();
           ur_options :=
             {| slippageTolerance := Samples.one_percent;
                permit := None;
                feeFields :=
                  Some {| feeOptions :=
                            Some {| fee := {| numerator := 25; denominator := 10000 |};
                                    recipient := "0xfee" |};
                          flatFeeOptions := None |} |} |};
      addClassicTransaction_call {| hash := "0xhash" |}
        {| type := Swap;
           inputCurrencyId := "1-ETH";
           outputCurrencyId := "1-0xa0b8";
           isUniswapXOrder := false;
           swapAmounts := ExactInputSwapAmounts "1000" "500" "495" |}
        (Some 1700000600) ].
Proof. vm_compute. reflexivity. Qed.

End Checks.

(** ** The conditional theorems at sample runs *)

Section Witnesses.

Import SwapCallback.

Local Abbreviation classic_in := (Samples.trade ClassicTrade EXACT_INPUT).
Local Abbreviation limit_out := (Samples.trade LimitOrderTrade EXACT_OUTPUT).

(** A wallet on chain 10 whose switch to chain 1 fails. *)
Lemma submitSwap_precondition_failure_witness :
  first_failing Samples.isEVMChain Samples.useSupportedChainId
    (Samples.props (Some classic_in)) (Samples.hooks (Some 10) false) = Some ChainMatches
  ∧ (outcome (Samples.submit (Some classic_in) (Some 10) false) = inl ChainSwitchFailed
     ∧ (∀ c', check_error c' = check_error ChainMatches → c' = ChainMatches)
     ∧ count is_switch (trace (Samples.submit (Some classic_in) (Some 10) false)) = 0%nat
     ∧ count is_submission (trace (Samples.submit (Some classic_in) (Some 10) false)) = 0%nat
     ∧ count is_record_write (trace (Samples.submit (Some classic_in) (Some 10) false)) = 0%nat
     ∧ (ChainMatches ≠ ChainMatches →
        trace (Samples.submit (Some classic_in) (Some 10) false) = [])
     ∧ (ChainMatches = ChainMatches →
        ∃ target, swapChainId (Samples.hooks (Some 10) false) = Some target
                  ∧ trace (Samples.submit (Some classic_in) (Some 10) false)
                    = [selectChain_call target false])).
Proof.
  split; [reflexivity|].
  exact (submitSwap_precondition_failure
           Samples.currencyId Samples.isEVMChain Samples.useSupportedChainId
           Samples.BigNumber_from
           (Samples.props (Some classic_in)) (Samples.hooks (Some 10) false)
           ChainMatches eq_refl).
Defined.

(** The same wallet, seen through the chain switch theorem. *)
Lemma submitSwap_chain_switch_witness :
  check_passes Samples.isEVMChain Samples.useSupportedChainId
    (Samples.props (Some classic_in)) (Samples.hooks (Some 10) true) TradePresent = true
  ∧ check_passes Samples.isEVMChain Samples.useSupportedChainId
      (Samples.props (Some classic_in)) (Samples.hooks (Some 10) true) WalletConnected = true
  ∧ check_passes Samples.isEVMChain Samples.useSupportedChainId
      (Samples.props (Some classic_in)) (Samples.hooks (Some 10) true) ChainResolvable = true
  ∧ check_passes Samples.isEVMChain Samples.useSupportedChainId
      (Samples.props (Some classic_in)) (Samples.hooks (Some 10) true)
      ChainFamilySupported = true
  ∧ swapChainId (Samples.hooks (Some 10) true) = Some 1
  ∧ supportedConnectedChainId Samples.useSupportedChainId (Samples.hooks (Some 10) true)
    ≠ Some 1
  ∧ count is_switch_attempt (trace (Samples.submit (Some classic_in) (Some 10) true)) = 1%nat
  ∧ ∃ sub rest,
      trace (Samples.submit (Some classic_in) (Some 10) true)
      = selectChain_call 1 true :: sub :: rest
      ∧ is_submission sub = true.
Proof.
  assert (supportedConnectedChainId Samples.useSupportedChainId
            (Samples.hooks (Some 10) true) ≠ Some 1) as Hne by (vm_compute; congruence).
  repeat (split; [reflexivity|]). split; [exact Hne|].
  destruct (submitSwap_chain_switch
              Samples.currencyId Samples.isEVMChain Samples.useSupportedChainId
              Samples.BigNumber_from
              (Samples.props (Some classic_in)) (Samples.hooks (Some 10) true) 1
              eq_refl eq_refl eq_refl eq_refl eq_refl) as [Hdiff _].
  destruct (Hdiff Hne) as (Hone & _ & _ & Hok).
  split; [exact Hone|].
  destruct (Hok eq_refl) as (sub & rest & Htr & Hsub & _). by exists sub, rest.
Defined.

(** A limit order on the right chain. *)
Lemma submitSwap_records_result_witness :
  Samples.submit (Some limit_out) (Some 1) true
  = ([ uniswapXSwapCallback_call
         {| x_trade := Some limit_out; x_allowedSlippage := Samples.one_percent;
            x_fiatValues := () |};
       dispatch_addTransaction
         {| order_id := "0xorder";
            order_chainId := 1;
            order_from := "0xabc";
            order_status := Pending;
            order_addedTime := 1699999999000;
            order_transactionOriginType := Internal;
            order_typeInfo :=
              {| type := Swap;
                 inputCurrencyId := "1-ETH";
                 outputCurrencyId := "1-0xa0b8";
                 isUniswapXOrder := true;
                 swapAmounts := ExactOutputSwapAmounts "1010" "500" "1000" |};
            order_routing := DUTCH_LIMIT;
            order_orderHash := "0xorder";
            order_queueStatus := Submitted;
            order_encodedOrder := "0xencoded";
            order_expiry := 1700000000 |} ],
      inr (UniswapXResult
             {| uniswapx_type := FillUniswapXv2;
                uniswapx_response :=
                  {| orderHash := "0xorder"; encodedOrder := "0xencoded";
                     deadline := 1700000000 |} |}))
  ∧ ∃ t addr target,
      SwapCallback.trade (Samples.props (Some limit_out)) = Some t
      ∧ address (account (Samples.hooks (Some 1) true)) = Some addr
      ∧ swapChainId (Samples.hooks (Some 1) true) = Some target.
Proof.
  assert (Samples.submit (Some limit_out) (Some 1) true = _) as Hrun
    by (vm_compute; reflexivity).
  split; [exact Hrun|].
  destruct (submitSwap_records_result
              Samples.currencyId Samples.isEVMChain Samples.useSupportedChainId
              Samples.BigNumber_from
              (Samples.props (Some limit_out)) (Samples.hooks (Some 1) true) _ _ Hrun)
    as (t & addr & target & Ht & Ha & Hc & _).
  by exists t, addr, target.
Defined.

(** The classic EXACT_INPUT trade of 1000 for 500 at 1%: minimum 495. *)
Lemma submitSwap_recorded_summary_witness :
  SwapCallback.trade (Samples.props (Some classic_in)) = Some classic_in
  ∧ addClassicTransaction_call {| hash := "0xhash" |}
      {| type := Swap;
         inputCurrencyId := "1-ETH";
         outputCurrencyId := "1-0xa0b8";
         isUniswapXOrder := false;
         swapAmounts := ExactInputSwapAmounts "1000" "500" "495" |}
      (Some 1700000600)
    ∈ trace (Samples.submit (Some classic_in) (Some 1) true)
  ∧ ∃ result,
      outcome (Samples.submit (Some classic_in) (Some 1) true) = inr result
      ∧ result_type result = Classic.
Proof.
  split; [reflexivity|].
  assert (addClassicTransaction_call {| hash := "0xhash" |}
            {| type := Swap;
               inputCurrencyId := "1-ETH";
               outputCurrencyId := "1-0xa0b8";
               isUniswapXOrder := false;
               swapAmounts := ExactInputSwapAmounts "1000" "500" "495" |}
            (Some 1700000600)
          ∈ trace (Samples.submit (Some classic_in) (Some 1) true)) as Hev.
  { apply list_elem_of_In. vm_compute. right. left. reflexivity. }
  split; [exact Hev|].
  destruct (submitSwap_recorded_summary
              Samples.currencyId Samples.isEVMChain Samples.useSupportedChainId
              Samples.BigNumber_from
              (Samples.props (Some classic_in)) (Samples.hooks (Some 1) true)
              classic_in _ _ eq_refl Hev eq_refl)
    as (result & Ho & _ & Hflag & _).
  exists result. split; [exact Ho|].
  destruct result as [r|[[|] resp]]; [reflexivity| |];
    exfalso; simpl in Hflag; (assert (false = true) as Habs by (apply Hflag; eauto));
    discriminate Habs.
Defined.

End Witnesses.

(** * Further properties *)

(** ** More on the transport resolver *)

Section TransportResolverMore.

Import WagmiConfig.

Lemma first_occurrences_sublist (xs seen : list string) :
  first_occurrences seen xs `sublist_of` xs.
Proof.
  revert seen. induction xs as [|x xs IH]; intros seen; simpl; [constructor|].
  destruct (decide (x ∈ seen)); [apply sublist_cons | apply sublist_skip]; apply IH.
Qed.

Lemma filter_Boolean_sublist (l : list string) : List.filter Boolean l `sublist_of` l.
Proof.
  induction l as [|x l IH]; simpl; [constructor|].
  destruct (Boolean x); by constructor.
Qed.

Lemma first_occurrences_fresh (xs seen : list string) :
  NoDup xs → (∀ x, x ∈ xs → x ∉ seen) → first_occurrences seen xs = xs.
Proof.
  revert seen. induction xs as [|x xs IH]; intros seen Hnd Hfresh; simpl; [done|].
  apply NoDup_cons in Hnd as [Hx Hnd].
  rewrite decide_False by (apply Hfresh; left).
  f_equal. apply IH; [done|]. intros y Hy.
  rewrite elem_of_app, list_elem_of_singleton. intros [Hs| ->]; [|done].
  by apply (Hfresh y); [right|].
Qed.

Lemma filter_Boolean_all (l : list string) :
  "" ∉ l → List.filter Boolean l = l.
Proof.
  induction l as [|x l IH]; simpl; [done|]. rewrite not_elem_of_cons. intros [Hx Hl].
  unfold Boolean, truthy_string. rewrite bool_decide_true by done.
  f_equal. by apply IH.
Qed.

(** X1. The resolver only drops entries: its output is a subsequence of
    the four tiers spread in priority order, so it holds no URL that the
    chain does not list and never reorders two URLs that it keeps. *)
Theorem orderedTransportUrls_sublist (chain : Chain) :
  orderedTransportUrls chain `sublist_of` orderedRpcUrls chain
  ∧ (length (orderedTransportUrls chain) ≤ length (orderedRpcUrls chain))%nat.
Proof.
  assert (orderedTransportUrls chain `sublist_of` orderedRpcUrls chain) as Hsub.
  { unfold orderedTransportUrls, Array_from. rewrite new_Set_first_occurrences.
    etrans; [apply first_occurrences_sublist | apply filter_Boolean_sublist]. }
  split; [done|]. by apply sublist_length.
Qed.

(** X2. The endpoint that is tried first is the first non-empty URL in
    tier order; there is none exactly when every listed URL is empty (or
    no tier lists any). *)
Theorem orderedTransportUrls_primary (chain : Chain) :
  head (orderedTransportUrls chain) = head (List.filter Boolean (orderedRpcUrls chain))
  ∧ (orderedTransportUrls chain = [] ↔ ∀ u, u ∈ orderedRpcUrls chain → u = "").
Proof.
  unfold orderedTransportUrls, Array_from. rewrite new_Set_first_occurrences.
  split.
  - destruct (List.filter Boolean (orderedRpcUrls chain)) as [|x xs]; simpl; [done|].
    destruct (decide (x ∈ [])) as [Hx|_]; [by apply elem_of_nil in Hx | done].
  - split.
    + intros Hnil u Hu. destruct (decide (u = "")) as [|Hne]; [done|].
      assert (u ∈ first_occurrences [] (List.filter Boolean (orderedRpcUrls chain))) as Hin.
      { rewrite elem_of_first_occurrences, elem_of_filter_Boolean.
        split; [done | apply not_elem_of_nil]. }
      rewrite Hnil in Hin. by apply elem_of_nil in Hin.
    + intros Hall.
      destruct (first_occurrences [] _) as [|x xs] eqn:Hout; [done|].
      assert (x ∈ first_occurrences [] (List.filter Boolean (orderedRpcUrls chain))) as Hin
        by (rewrite Hout; left).
      apply elem_of_first_occurrences in Hin as [Hin _].
      apply elem_of_filter_Boolean in Hin as [Hin Hne]. by destruct Hne, (Hall x).
Qed.

(** X3. On a chain whose tiers list no URL twice and no empty URL the
    resolver returns the spread of the tiers unchanged. *)
Theorem orderedTransportUrls_clean (chain : Chain) :
  NoDup (orderedRpcUrls chain) →
  "" ∉ orderedRpcUrls chain →
  orderedTransportUrls chain = orderedRpcUrls chain.
Proof.
  intros Hnd Hne. unfold orderedTransportUrls, Array_from.
  rewrite new_Set_first_occurrences, filter_Boolean_all by done.
  apply first_occurrences_fresh; [done|]. intros x _. apply not_elem_of_nil.
Qed.

(** X4. Resolving is idempotent: a chain that lists the resolved URLs as
    its interface tier, and nothing else, resolves to the same URLs. *)
Theorem orderedTransportUrls_idempotent (chain : Chain) :
  orderedTransportUrls
    {| id := id chain;
       name := name chain;
       rpcUrls := {| rpc_interface := Some {| tier_http := orderedTransportUrls chain |};
                     rpc_default := None;
                     rpc_public := None;
                     rpc_fallback := None |} |}
  = orderedTransportUrls chain.
Proof.
  unfold orderedTransportUrls at 1. unfold orderedRpcUrls, Array_from. simpl.
  rewrite app_nil_r, new_Set_first_occurrences.
  assert (NoDup (orderedTransportUrls chain) ∧ "" ∉ orderedTransportUrls chain)
    as [Hnd Hne].
  { unfold orderedTransportUrls, Array_from. rewrite new_Set_first_occurrences.
    split; [apply NoDup_first_occurrences|].
    rewrite elem_of_first_occurrences, elem_of_filter_Boolean. tauto. }
  rewrite filter_Boolean_all by done.
  apply first_occurrences_fresh; [done|]. intros x _. apply not_elem_of_nil.
Qed.

End TransportResolverMore.

(** ** More on the swap callback *)

Section SwapOrchestratorMore.

Import SwapCallback.

Context {FiatValues PermitSignature : Type}.
Variable currencyId : Currency → string.
Variable isEVMChain : ChainId → bool.
Variable useSupportedChainId : option ChainId → option ChainId.
Variable BigNumber_from : string → Z.

Local Abbreviation Props := (@Props FiatValues PermitSignature).
Local Abbreviation Hooks := (@Hooks FiatValues PermitSignature).
Local Abbreviation Event := (@Event FiatValues PermitSignature).
Local Abbreviation validate := (validate isEVMChain useSupportedChainId).
Local Abbreviation swapCallback := (swapCallback BigNumber_from).
Local Abbreviation submitSwap :=
  (submitSwap currencyId isEVMChain useSupportedChainId BigNumber_from).
Local Abbreviation check_passes := (check_passes isEVMChain useSupportedChainId).
Local Abbreviation first_failing := (first_failing isEVMChain useSupportedChainId).
Local Abbreviation connectedChain := (supportedConnectedChainId useSupportedChainId).
Local Abbreviation differs_from_target := (differs_from_target useSupportedChainId).
Local Abbreviation switch_part := (switch_part useSupportedChainId).

(** A run, told by the first failing check and by what the submission
    primitive answers. *)
Lemma submitSwap_run (p : Props) (h : Hooks) :
  match first_failing p h with
  | Some c =>
      outcome (submitSwap p h) = inl (check_error c)
      ∧ (trace (submitSwap p h) = []
         ∨ ∃ target, swapChainId h = Some target
                     ∧ differs_from_target h target = true
                     ∧ selectChain h target = false
                     ∧ trace (submitSwap p h) = switch_part h target)
  | None =>
      ∃ t addr target sub,
        trade p = Some t ∧ address (account h) = Some addr
        ∧ swapChainId h = Some target
        ∧ (differs_from_target h target = true → selectChain h target = true)
        ∧ trace (swapCallback p h) = [sub] ∧ is_submission sub = true
        ∧ submitSwap p h =
            match outcome (swapCallback p h) with
            | inl e => (switch_part h target ++ [sub], inl e)
            | inr result =>
                (switch_part h target ++ sub ::
                   trace (record h t addr target
                            (swapInfo currencyId t (allowedSlippage p) result) result),
                 inr result)
            end
  end.
Proof.
  pose proof (validate_first_failing isEVMChain useSupportedChainId p h) as Hv.
  destruct (first_failing p h) as [c|] eqn:Hc.
  - destruct Hv as (tr & Hv & Hfirst & Hlast).
    assert (submitSwap p h = (tr, inl (check_error c))) as ->
      by (unfold SwapCallback.submitSwap; by rewrite Hv).
    split; [done|]. simpl. destruct (decide (c = ChainMatches)) as [->|Hne].
    + right. destruct (Hlast eq_refl) as (target & Ht & ->). exists target.
      unfold SwapCallback.first_failing, checks in Hc. simpl in Hc.
      repeat (match type of Hc with
              | context [negb ?b] => destruct b eqn:?; simpl in Hc; try done
              end).
      all: rewrite Ht in *; simpl in *; unfold SwapCallback.switch_part.
      all: fold (differs_from_target h target) in *.
      all: destruct (differs_from_target h target); simpl in *; try done.
      all: destruct (selectChain h target); simpl in *; done.
    + left. by apply Hfirst.
  - destruct Hv as (t & addr & target & Ht & Ha & Hs & Hv).
    destruct (swapCallback_one_call BigNumber_from p h) as (sub & Htr & Hsub & _).
    exists t, addr, target, sub.
    assert (differs_from_target h target = true → selectChain h target = true) as Hsel.
    { intros Hd. unfold SwapCallback.first_failing, checks in Hc. simpl in Hc.
      repeat (match type of Hc with
              | context [negb ?b] => destruct b eqn:?; simpl in Hc; try done
              end).
      rewrite Hs in *. fold (differs_from_target h target) in *.
      rewrite Hd in *. by destruct (selectChain h target). }
    repeat (split; [done|]).
    assert (switch_part h target =
            if differs_from_target h target then [selectChain_call target true] else [])
      as ->.
    { unfold SwapCallback.switch_part. destruct (differs_from_target h target); [|done].
      by rewrite Hsel. }
    by apply submitSwap_after_validate.
Qed.

Lemma first_failing_None (p : Props) (h : Hooks) :
  first_failing p h = None ↔ ∀ c, check_passes p h c = true.
Proof.
  unfold SwapCallback.first_failing, checks. split.
  - intros Hnone c. pose proof (find_none _ _ Hnone c) as Hc.
    apply negb_false_iff, Hc. destruct c; simpl; tauto.
  - intros Hall. cbn [List.find]. by rewrite !Hall.
Qed.

Lemma count_cons (f : Event → bool) (ev : Event) (l : list Event) :
  count f (ev :: l) = ((if f ev then 1 else 0) + count f l)%nat.
Proof. unfold count. simpl. by destruct (f ev). Qed.

Lemma switch_part_spec (h : Hooks) (target : ChainId) :
  (length (switch_part h target) ≤ 1)%nat
  ∧ Forall (λ ev, ev = selectChain_call target (selectChain h target))
           (switch_part h target).
Proof.
  unfold SwapCallback.switch_part. destruct (differs_from_target h target); simpl.
  - split; [lia|]. by repeat constructor.
  - split; [lia|]. constructor.
Qed.

Lemma record_at_most_one (h : Hooks) t addr target info result :
  (length (trace (record h t addr target info result)) ≤ 1)%nat.
Proof.
  unfold record, trace, emit, ret. destruct result as [r|r]; simpl; [lia|].
  destruct (variant t); simpl; lia.
Qed.


(** X6. When the checks pass and the submission primitive throws, the
    callback throws the same error; the primitive has been called once
    and nothing has been recorded. *)
Theorem submitSwap_submission_failure (p : Props) (h : Hooks) (e : exn) :
  first_failing p h = None →
  outcome (swapCallback p h) = inl e →
  outcome (submitSwap p h) = inl e
  ∧ count is_submission (trace (submitSwap p h)) = 1%nat
  ∧ count is_record_write (trace (submitSwap p h)) = 0%nat.
Proof.
  intros Hc He. pose proof (submitSwap_run p h) as Hrun. rewrite Hc in Hrun.
  destruct Hrun as (t & addr & target & sub & _ & _ & _ & _ & _ & Hsub & ->).
  rewrite He. cbn [trace outcome fst snd]. split; [done|]. rewrite !count_app.
  assert (count is_submission (switch_part h target) = 0%nat
          ∧ count is_record_write (switch_part h target) = 0%nat) as [-> ->].
  { unfold SwapCallback.switch_part. by destruct (differs_from_target h target). }
  rewrite !count_cons, Hsub.
  by assert (is_record_write sub = false) as -> by (by destruct sub).
Qed.

(** X7. A submission primitive is called exactly when all five checks
    pass, and then exactly once: never on a run that fails a check, never
    twice. *)
Theorem submitSwap_submits_iff_checks_pass (p : Props) (h : Hooks) :
  count is_submission (trace (submitSwap p h)) =
  match first_failing p h with None => 1%nat | Some _ => 0%nat end.
Proof.
  pose proof (submitSwap_run p h) as Hrun.
  destruct (first_failing p h) as [c|].
  - destruct Hrun as [_ [->|(target & _ & Hd & Hsel & ->)]]; [done|].
    unfold SwapCallback.switch_part. by rewrite Hd.
  - destruct Hrun as (t & addr & target & sub & _ & _ & _ & _ & _ & Hsub & ->).
    assert (count is_submission (switch_part h target) = 0%nat) as Hsw.
    { unfold SwapCallback.switch_part. by destruct (differs_from_target h target). }
    destruct (outcome (swapCallback p h)) as [e|result]; cbn [trace fst].
    + rewrite count_app, Hsw, count_cons, Hsub. done.
    + rewrite count_app, Hsw, count_cons, Hsub.
      destruct (record_writes h t addr target
                  (swapInfo currencyId t (allowedSlippage p) result) result) as [_ Hw].
      by destruct (count_writes _ Hw) as [_ ->].
Qed.

(** X8. Every run, failed or not, calls its collaborators in one order:
    at most one chain switch request, then at most one submission call,
    then at most one record write; nothing is recorded without a
    submission call before it; and a switch is only ever requested for
    the swap's target chain. *)
Theorem submitSwap_trace_order (p : Props) (h : Hooks) :
  ∃ pre sub writes,
    trace (submitSwap p h) = pre ++ sub ++ writes
    ∧ (length pre ≤ 1)%nat ∧ (length sub ≤ 1)%nat ∧ (length writes ≤ 1)%nat
    ∧ Forall (λ ev, ∃ target, swapChainId h = Some target
                              ∧ ev = selectChain_call target (selectChain h target)) pre
    ∧ Forall (λ ev, is_submission ev = true) sub
    ∧ Forall (λ ev, is_record_write ev = true) writes
    ∧ (sub = [] → writes = []).
Proof.
  pose proof (submitSwap_run p h) as Hrun.
  destruct (first_failing p h) as [c|].
  - destruct Hrun as [_ [->|(target & Ht & _ & _ & ->)]].
    + exists [], [], []. repeat split; simpl; try lia; constructor.
    + exists (switch_part h target), [], [].
      destruct (switch_part_spec h target) as [Hlen Hall].
      rewrite app_nil_r. repeat split; simpl; try lia; try constructor.
      eapply Forall_impl; [exact Hall|]. simpl. eauto.
  - destruct Hrun as (t & addr & target & sub & _ & _ & Ht & _ & _ & Hsub & ->).
    destruct (switch_part_spec h target) as [Hlen Hall].
    assert (Forall (λ ev, ∃ target, swapChainId h = Some target
                          ∧ ev = selectChain_call target (selectChain h target))
                   (switch_part h target)) as Hpre.
    { eapply Forall_impl; [exact Hall|]. simpl. eauto. }
    destruct (outcome (swapCallback p h)) as [e|result]; simpl.
    + exists (switch_part h target), [sub], []. rewrite app_nil_r.
      repeat split; simpl; try lia; try done; by repeat constructor.
    + eexists (switch_part h target), [sub], _. split; [done|].
      pose proof (record_at_most_one h t addr target
                    (swapInfo currencyId t (allowedSlippage p) result) result).
      repeat split; simpl; try lia; try done; [by repeat constructor|].
      apply record_writes.
Qed.

(** X9. A limit order record reaches the store only for a limit trade of
    a connected wallet: its sender is the wallet's non-empty address, its
    chain is the swap's target chain, which is truthy and an EVM chain,
    its time is that of the clock, and its id is its order hash. *)
Theorem submitSwap_limit_record_origin (p : Props) (h : Hooks)
    (details : UniswapXOrderDetails) :
  dispatch_addTransaction details ∈ trace (submitSwap p h) →
  isLimitTrade (trade p) = true
  ∧ isConnected (account h) = true
  ∧ address (account h) = Some (order_from details)
  ∧ order_from details ≠ ""
  ∧ swapChainId h = Some (order_chainId details)
  ∧ order_chainId details ≠ 0
  ∧ isEVMChain (order_chainId details) = true
  ∧ order_addedTime details = Date_now h
  ∧ order_id details = order_orderHash details.
Proof.
  intros Hin. pose proof (submitSwap_run p h) as Hrun.
  destruct (first_failing p h) as [c|] eqn:Hc.
  { destruct Hrun as [_ [Htr|(target & _ & Hd & _ & Htr)]]; rewrite Htr in Hin.
    - by apply elem_of_nil in Hin.
    - unfold SwapCallback.switch_part in Hin. rewrite Hd in Hin.
      by apply list_elem_of_singleton in Hin. }
  destruct Hrun as (t & addr & target & sub & Ht & Ha & Hs & _ & _ & Hsub & Hrun).
  pose proof (proj1 (first_failing_None p h) Hc) as Hall.
  pose proof (Hall WalletConnected) as Hw. pose proof (Hall ChainResolvable) as Hr.
  pose proof (Hall ChainFamilySupported) as Hf. simpl in Hw, Hr, Hf.
  rewrite Ha in Hw. rewrite Hs in Hr, Hf. simpl in Hw, Hr, Hf.
  apply andb_true_iff in Hw as [Hconn Haddr].
  unfold truthy_string in Haddr. apply bool_decide_eq_true in Haddr.
  unfold truthy_number in Hr. apply bool_decide_eq_true in Hr.
  assert (∀ target', dispatch_addTransaction details ∈ switch_part h target' → False)
    as Hnsw.
  { intros target' Hsw. unfold SwapCallback.switch_part in Hsw.
    destruct (differs_from_target h target'); [|by apply elem_of_nil in Hsw].
    by apply list_elem_of_singleton in Hsw. }
  rewrite Hrun in Hin.
  destruct (outcome (swapCallback p h)) as [e|result]; cbn [trace fst] in Hin.
  { apply elem_of_app in Hin as [Hin|Hin]; [by destruct (Hnsw target)|].
    apply list_elem_of_singleton in Hin. by subst sub. }
  apply elem_of_app in Hin as [Hin|Hin]; [by destruct (Hnsw target)|].
  apply elem_of_cons in Hin as [Hin|Hin]; [by subst sub|].
  unfold record, emit, ret in Hin. rewrite Ht.
  destruct result as [r|r]; cbn [fst] in Hin.
  { by apply list_elem_of_singleton in Hin. }
  destruct (isLimitTrade (Some t)) eqn:Hl; cbn [fst] in Hin;
    [|by apply elem_of_nil in Hin].
  apply list_elem_of_singleton in Hin. injection Hin as ->. simpl.
  repeat split; done.
Qed.

(** X10. The one submission call of a run is decided by the trade: a
    UniswapX trade goes to the UniswapX primitive with the trade, the
    slippage and the fiat values; any other trade goes to the router
    primitive with the slippage, the permit and the fee fields of
    [getUniversalRouterFeeFields] as its options. *)
Theorem submitSwap_dispatch (p : Props) (h : Hooks) (ev : Event) :
  ev ∈ trace (submitSwap p h) →
  is_submission ev = true →
  ev = if isUniswapXTrade (trade p)
       then uniswapXSwapCallback_call
              {| x_trade := trade p;
                 x_allowedSlippage := allowedSlippage p;
                 x_fiatValues := fiatValues p |}
       else universalRouterSwapCallback_call
              {| ur_trade := if isClassicTrade (trade p) then trade p else None;
                 ur_fiatValues := fiatValues p;
                 ur_options :=
                   {| slippageTolerance := allowedSlippage p;
                      permit := permitSignature p;
                      feeFields := getUniversalRouterFeeFields BigNumber_from (trade p) |} |}.
Proof.
  intros Hin Hev. pose proof (submitSwap_run p h) as Hrun.
  assert (∀ target, ev ∈ switch_part h target → False) as Hnsw.
  { intros target Hsw. unfold SwapCallback.switch_part in Hsw.
    destruct (differs_from_target h target); [|by apply elem_of_nil in Hsw].
    apply list_elem_of_singleton in Hsw. by subst ev. }
  destruct (first_failing p h) as [c|].
  { destruct Hrun as [_ [Htr|(target & _ & _ & _ & Htr)]]; rewrite Htr in Hin.
    - by apply elem_of_nil in Hin.
    - by destruct (Hnsw target). }
  destruct Hrun as (t & addr & target & sub & _ & _ & _ & _ & Hs & _ & Hrun).
  assert (ev = sub) as ->.
  { rewrite Hrun in Hin. destruct (outcome (swapCallback p h)) as [e|result]; simpl in Hin.
    - apply elem_of_app in Hin as [Hin|Hin]; [by destruct (Hnsw target)|].
      by apply list_elem_of_singleton in Hin.
    - apply elem_of_app in Hin as [Hin|Hin]; [by destruct (Hnsw target)|].
      apply elem_of_cons in Hin as [Hin|Hin]; [done|].
      destruct (record_writes h t addr target
                  (swapInfo currencyId t (allowedSlippage p) result) result) as [_ Hw].
      rewrite Forall_forall in Hw. specialize (Hw ev Hin). by destruct ev. }
  revert Hs. unfold SwapCallback.swapCallback, uniswapXSwapCallback,
    universalRouterSwapCallback.
  destruct (isUniswapXTrade (trade p)) eqn:Hx; simpl.
  - destruct (useUniswapXSwapCallback h _); simpl; by intros [= <-].
  - destruct (useUniversalRouterSwapCallback h _); simpl; by intros [= <-].
Qed.

End SwapOrchestratorMore.

(** ** More on the provider cache and its hooks *)

Section ProviderCacheMore.

Import EthersProvider EthersHooks.

Context {Transport : Type}.

Local Abbreviation Client := (@Client Transport).
Local Abbreviation Web3Provider := (@Web3Provider Transport).
Local Abbreviation Heap := (@Heap Transport).

Lemma calls_keep (cs : list (option Client * option Z)) (σ : Heap)
    (ref : nat) (p : Web3Provider) :
  providers σ !! ref = Some p → providers (calls cs σ).2 !! ref = Some p.
Proof.
  revert σ. induction cs as [|[client cid] cs IH]; intros σ Hp; [done|].
  rewrite calls_cons. simpl. by apply IH, clientToProvider_keeps.
Qed.

(** What a run returned for a client is what the cache holds for it at
    the end of the run. *)
Lemma calls_results_cached (cs : list (option Client * option Z)) (σ : Heap)
    (i : nat) (c : Client) (p : Web3Provider) (b : bool) :
  (calls cs σ).1 !! i = Some (Some c, Some p, b) →
  providers (calls cs σ).2 !! client_ref c = Some p.
Proof.
  revert σ i. induction cs as [|[client cid] cs IH]; intros σ i; [done|].
  rewrite calls_cons. simpl. destruct i as [|i]; simpl.
  - intros [= -> Hr _]. by apply calls_keep, clientToProvider_caches.
  - apply IH.
Qed.

Lemma heap_wf_step (client : option Client) (cid : option Z) (σ : Heap) :
  heap_wf σ → heap_wf (clientToProvider client cid σ).2.
Proof.
  intros [Hlt Hinj].
  destruct (clientToProvider_step client cid σ)
    as [->|(c & n & _ & _ & Hnone & ->)]; [done|].
  split; simpl.
  - intros ref p. rewrite lookup_insert. case_decide.
    + intros [= <-]. simpl. lia.
    + intros Hp. specialize (Hlt ref p Hp). lia.
  - intros ref1 ref2 p1 p2. rewrite !lookup_insert.
    repeat case_decide; subst; try done.
    + intros [= <-] Hp2 Heq. simpl in Heq. specialize (Hlt ref2 p2 Hp2). lia.
    + intros Hp1 [= <-] Heq. simpl in Heq. specialize (Hlt ref1 p1 Hp1). lia.
    + apply Hinj.
Qed.

Lemma heap_wf_calls (cs : list (option Client * option Z)) (σ : Heap) :
  heap_wf σ → heap_wf (calls cs σ).2.
Proof.
  revert σ. induction cs as [|[client cid] cs IH]; intros σ Hwf; [done|].
  rewrite calls_cons. simpl. by apply IH, heap_wf_step.
Qed.

Lemma heap_wf_initial : heap_wf (@initial_heap Transport).
Proof. split; intros *; simpl; by rewrite lookup_empty. Qed.

(** A call does not touch the cache entries of other clients. *)
Lemma clientToProvider_other (client : option Client) (cid : option Z) (σ : Heap)
    (ref : nat) :
  (∀ c, client = Some c → client_ref c ≠ ref) →
  providers (clientToProvider client cid σ).2 !! ref = providers σ !! ref.
Proof.
  intros Href. destruct (clientToProvider_step client cid σ)
    as [->|(c & n & -> & _ & _ & ->)]; [done|].
  simpl. rewrite lookup_insert_ne; [done|]. by apply Href.
Qed.

(** X11. The cache is keyed by the client alone. The first call for a
    client builds the provider from the client's transport and the network
    of that call; a later call with another chain id, as long as it yields
    a network at all, returns that same provider, with the network of the
    first call. *)
Theorem clientToProvider_network_fixed (c : Client) (cid1 cid2 : option Z)
    (σ : Heap) (n1 : Network) :
  providers σ !! client_ref c = None →
  network_of c cid1 = Some n1 →
  is_Some (network_of c cid2) →
  ∃ p, (clientToProvider (Some c) cid1 σ).1 = Some p
       ∧ provider_network p = n1
       ∧ provider_transport p = transport c
       ∧ clientToProvider (Some c) cid2 (clientToProvider (Some c) cid1 σ).2
         = (Some p, (clientToProvider (Some c) cid1 σ).2).
Proof.
  intros Hnone Hn1 [n2 Hn2].
  assert (clientToProvider (Some c) cid1 σ =
          (Some {| provider_ref := allocated σ; provider_transport := transport c;
                   provider_network := n1 |},
           {| providers :=
                <[client_ref c := {| provider_ref := allocated σ;
                                     provider_transport := transport c;
                                     provider_network := n1 |}]> (providers σ);
              allocated := S (allocated σ) |})) as ->.
  { unfold clientToProvider. by rewrite Hn1, Hnone. }
  simpl. eexists. repeat split.
  unfold clientToProvider. rewrite Hn2. simpl. by rewrite lookup_insert_eq.
Qed.

(** X12. Providers are not shared between clients: in a run that starts
    from a well-formed heap, such as the empty one, two calls for clients
    of different identity never return the same provider instance. *)
Theorem clientToProvider_distinct_clients (cs : list (option Client * option Z))
    (σ : Heap) (i j : nat) (c c' : Client) (p q : Web3Provider) (b b' : bool) :
  heap_wf σ →
  (calls cs σ).1 !! i = Some (Some c, Some p, b) →
  (calls cs σ).1 !! j = Some (Some c', Some q, b') →
  client_ref c ≠ client_ref c' →
  provider_ref p ≠ provider_ref q.
Proof.
  intros Hwf Hi Hj Hne Heq.
  apply calls_results_cached in Hi, Hj.
  destruct (heap_wf_calls cs σ Hwf) as [_ Hinj].
  by apply Hne, (Hinj _ _ p q).
Qed.

(** X13. A call leaves the rest of the state alone: when it returns
    nothing the heap is unchanged; the cache entries of other clients are
    never touched; an entry, once there, is never replaced or removed; and
    at most one object is allocated. *)
Theorem clientToProvider_frame (client : option Client) (cid : option Z) (σ : Heap) :
  ((clientToProvider client cid σ).1 = None → (clientToProvider client cid σ).2 = σ)
  ∧ (∀ ref, (∀ c, client = Some c → client_ref c ≠ ref) →
            providers (clientToProvider client cid σ).2 !! ref = providers σ !! ref)
  ∧ (∀ ref p, providers σ !! ref = Some p →
              providers (clientToProvider client cid σ).2 !! ref = Some p)
  ∧ (allocated σ ≤ allocated (clientToProvider client cid σ).2 ≤ S (allocated σ))%nat.
Proof.
  destruct (clientToProvider_step client cid σ)
    as [Hsame|(c & n & -> & Hn & Hnone & Hrun)].
  - rewrite Hsame. repeat split; try done; lia.
  - split; [by rewrite Hrun|]. split; [intros ref; apply clientToProvider_other|].
    split; [intros ref p; apply clientToProvider_keeps|]. rewrite Hrun. simpl. lia.
Qed.

(** X14. The two hooks agree on a connected wallet: when the account is
    on the requested chain and [useEthersWeb3Provider] has returned a
    provider for the connector client, [useEthersProvider] returns that
    same instance and changes nothing. *)
Theorem useEthersProvider_same_instance (cid : option Z) (c : Client)
    (disconnectedClient : option Client) (σ σ1 : Heap) (p : Web3Provider) :
  useEthersWeb3Provider cid (Some c) σ = (Some p, σ1) →
  useEthersProvider cid cid (Some c) disconnectedClient σ1 = (Some p, σ1).
Proof.
  unfold useEthersWeb3Provider, useEthersProvider. intros Hrun.
  rewrite bool_decide_false by (by intros []).
  pose proof (clientToProvider_caches c cid σ p) as Hc. rewrite Hrun in Hc.
  specialize (Hc eq_refl). simpl in Hc.
  assert (is_Some (network_of c cid)) as [n Hn].
  { unfold clientToProvider in Hrun. destruct (network_of c cid); [by eexists|done]. }
  unfold clientToProvider. by rewrite Hn, Hc.
Qed.

(** X15. [useEthersProvider] uses the connector client only when the
    account is on the requested chain. On any other chain, and so also
    for a connected account when no chain id is requested, it answers
    from the disconnected client, and it builds nothing for a connector
    client that is another object. *)
Theorem useEthersProvider_other_chain (account_chainId cid : option Z)
    (client disconnectedClient : option Client) (σ : Heap) :
  account_chainId ≠ cid →
  useEthersProvider account_chainId cid client disconnectedClient σ
  = clientToProvider disconnectedClient cid σ
  ∧ (disconnectedClient = None →
     useEthersProvider account_chainId cid client disconnectedClient σ = (None, σ))
  ∧ (∀ c, client = Some c →
          (∀ d, disconnectedClient = Some d → client_ref d ≠ client_ref c) →
          providers (useEthersProvider account_chainId cid client disconnectedClient σ).2
            !! client_ref c
          = providers σ !! client_ref c).
Proof.
  intros Hne. unfold useEthersProvider. rewrite bool_decide_true by done.
  split; [done|]. split; [by intros ->|].
  intros c _ Hd. by apply clientToProvider_other.
Qed.

End ProviderCacheMore.

(** ** The wallet connectors and the configuration object *)

Section ConnectorsFacts.

Import WagmiConfig WagmiConnectors.

Context {WalletConnectParams : Type}.
Variable WC_PARAMS : WalletConnectParams.
Variable BINANCE_WALLET_CONNECTOR_ID : string.
Variable UNISWAP_WEB_URL : string.
Variable UNISWAP_LOGO : string.
Variable PLAYWRIGHT_CONNECT_ADDRESS : string.
Variable window : option Window.
Variable isTestEnv : bool.
Variable isPlaywrightEnv : bool.
Variable ORDERED_EVM_CHAINS : list Chain.
Variable getNonEmptyArrayOrThrow : list Chain → exn + list Chain.
Variable isTestnetChain : Z → bool.

Local Abbreviation Connector := (@Connector WalletConnectParams).
Local Abbreviation getBinanceConnector :=
  (getBinanceConnector BINANCE_WALLET_CONNECTOR_ID window).
Local Abbreviation createWagmiConnectors :=
  (createWagmiConnectors WC_PARAMS BINANCE_WALLET_CONNECTOR_ID UNISWAP_WEB_URL
     UNISWAP_LOGO PLAYWRIGHT_CONNECT_ADDRESS window isTestEnv isPlaywrightEnv).
Local Abbreviation defaultConnectors :=
  (defaultConnectors WC_PARAMS BINANCE_WALLET_CONNECTOR_ID UNISWAP_WEB_URL
     UNISWAP_LOGO PLAYWRIGHT_CONNECT_ADDRESS window isTestEnv isPlaywrightEnv).
Local Abbreviation wagmiConfig :=
  (wagmiConfig WC_PARAMS BINANCE_WALLET_CONNECTOR_ID UNISWAP_WEB_URL
     UNISWAP_LOGO PLAYWRIGHT_CONNECT_ADDRESS window isTestEnv isPlaywrightEnv
     ORDERED_EVM_CHAINS getNonEmptyArrayOrThrow isTestnetChain).

(** X16. [getBinanceConnector] returns the injected connector exactly when
    there is a window and either [window.BinanceChain] is there and is not
    flagged as Trust Wallet, or it is not there and
    [window.binancew3w.ethereum] is. A Trust Wallet [BinanceChain] therefore
    gives the QR code connector even when the Binance provider is there
    too. The provider thunk of the injected connector finds a provider in
    that window, and when it is [BinanceChain] it is not Trust Wallet's.
    In every other case the QR code connector is returned, with its modal
    on. *)
Theorem getBinanceConnector_choice :
  ((∃ target, getBinanceConnector = injected target) ↔
   ∃ w, window = Some w
        ∧ ((∃ p, BinanceChain w = Some p ∧ isTrustWallet p ≠ Some true)
           ∨ (BinanceChain w = None
              ∧ ∃ b p, binancew3w w = Some b ∧ ethereum b = Some p)))
  ∧ (∀ target w, getBinanceConnector = injected target → window = Some w →
       target_id target = BINANCE_WALLET_CONNECTOR_ID
       ∧ is_Some (target_provider target w)
       ∧ ∀ q, BinanceChain w = Some q →
              target_provider target w = Some q ∧ isTrustWallet q ≠ Some true)
  ∧ ((∀ target, getBinanceConnector ≠ injected target) →
     getBinanceConnector = BinanceW3WConnector true).
Proof.
  unfold WagmiConnectors.getBinanceConnector, isBinanceExtensionInstalled,
    isBinanceDetected, isTrustWalletExtensionInstalled, truthy_object.
  destruct window as [w|]; simpl.
  2:{ split; [split; [by intros [? ?] | by intros (? & ? & _)]|].
      split; [done|]. done. }
  destruct (BinanceChain w) as [q|] eqn:Hq; simpl.
  - destruct (isTrustWallet q) as [[|]|] eqn:Htw; simpl.
    + split; [split; [by intros [? ?]|]|split; [done|done]].
      intros (w' & [= <-] & [(p & Hp & Hnt)|[Hn _]]); congruence.
    + split; [split; [intros _|by eauto]|].
      { exists w. split; [done|]. left. exists q. rewrite Hq, Htw. by split. }
      split; [|by intros H; destruct (H _ eq_refl)].
      intros target w' [= <-] [= <-]. simpl. unfold binance_provider. rewrite Hq.
      split; [done|]. split; [by eexists|]. intros q' [= <-]. by rewrite Htw.
    + split; [split; [intros _|by eauto]|].
      { exists w. split; [done|]. left. exists q. rewrite Hq, Htw. by split. }
      split; [|by intros H; destruct (H _ eq_refl)].
      intros target w' [= <-] [= <-]. simpl. unfold binance_provider. rewrite Hq.
      split; [done|]. split; [by eexists|]. intros q' [= <-]. by rewrite Htw.
  - destruct (binancew3w w) as [b|] eqn:Hb; simpl.
    + destruct (ethereum b) as [p|] eqn:He; simpl.
      * split; [split; [intros _|by eauto]|].
        { exists w. split; [done|]. right. split; [done|]. by exists b, p. }
        split; [|by intros H; destruct (H _ eq_refl)].
        intros target w' [= <-] [= <-]. simpl. unfold binance_provider.
        rewrite Hq, Hb. simpl. rewrite He. split; [done|]. split; [by eexists|]. done.
      * split; [split; [by intros [? ?]|]|split; [done|done]].
        intros (w' & [= <-] & [(p & Hp & _)|(_ & b' & p & Hb' & He')]); congruence.
    + split; [split; [by intros [? ?]|]|split; [done|done]].
      intros (w' & [= <-] & [(p & Hp & _)|(_ & b' & p & Hb' & He')]); congruence.
Qed.

(** X17. The connectors are listed in one fixed order (Porto, Binance,
    WalletConnect, embedded wallet, Coinbase Wallet, Safe, mock), each at
    most once. WalletConnect is left out exactly in a test environment
    that is not Playwright; the mock connector is there exactly when it is
    asked for, and then it comes last, with the Playwright address as its
    only account. *)
Theorem createWagmiConnectors_order (includeMockConnector : bool) :
  map connector_kind (createWagmiConnectors includeMockConnector)
  = List.filter
      (λ k, match k with
            | WalletConnectKind => negb (isTestEnv && negb isPlaywrightEnv)
            | MockKind => includeMockConnector
            | _ => true
            end) connector_order
  ∧ NoDup (map connector_kind (createWagmiConnectors includeMockConnector))
  ∧ (includeMockConnector = true →
     last (createWagmiConnectors includeMockConnector)
     = Some (createRejectableMockConnector [PLAYWRIGHT_CONNECT_ADDRESS]))
  ∧ (includeMockConnector = false →
     last (createWagmiConnectors includeMockConnector) = Some safe).
Proof.
  unfold WagmiConnectors.createWagmiConnectors, connector_order.
  destruct isTestEnv, isPlaywrightEnv, includeMockConnector; simpl;
    (split; [done|]); (split; [|by split]);
    apply (bool_decide_unpack _); by vm_compute.
Qed.

(** X18. The default connector list asks for the mock connector exactly
    in Playwright, where WalletConnect is never left out: it has all seven
    connectors in Playwright, five in any other test environment (neither
    WalletConnect nor the mock), and six elsewhere (no mock). *)
Theorem defaultConnectors_by_environment :
  length defaultConnectors
  = (if isPlaywrightEnv then 7 else if isTestEnv then 5 else 6)%nat
  ∧ (MockKind ∈ map connector_kind defaultConnectors ↔ isPlaywrightEnv = true)
  ∧ (WalletConnectKind ∈ map connector_kind defaultConnectors
     ↔ isPlaywrightEnv = true ∨ isTestEnv = false)
  ∧ (MockKind ∈ map connector_kind defaultConnectors →
     WalletConnectKind ∈ map connector_kind defaultConnectors).
Proof.
  unfold WagmiConnectors.defaultConnectors, WagmiConnectors.createWagmiConnectors.
  destruct isTestEnv, isPlaywrightEnv; simpl; repeat split; intros; try done;
    try (by left); try (by right);
    try (apply (bool_decide_unpack _); by vm_compute);
    exfalso;
    match goal with
    | H : _ ∈ _ |- _ => revert H; apply (bool_decide_unpack _); by vm_compute
    | H : _ ∨ _ |- _ => by destruct H
    end.
Qed.

(** X19. The exported configuration fails exactly when the chain list
    helper throws, with the helper's error. Otherwise it holds the chains
    the helper returned and the default connectors, and every client it
    builds reports through the default hook: each of its transports is for
    a URL of the chain's resolved list, never throws on a response, stays
    silent on status 200, and on any other status logs exactly once, with
    that chain's id and that transport's own URL, as a warning on a
    testnet and as an error otherwise. *)
Theorem wagmiConfig_reports :
  match wagmiConfig with
  | inl e => getNonEmptyArrayOrThrow ORDERED_EVM_CHAINS = inl e
  | inr config =>
      getNonEmptyArrayOrThrow ORDERED_EVM_CHAINS = inr (chains config)
      ∧ connectors config = defaultConnectors
      ∧ ∀ chain t response,
          t ∈ transports (transport (client config chain)) →
          url t ∈ orderedTransportUrls chain
          ∧ outcome (onFetchResponse t response) = inr tt
          ∧ (status response = 200 → trace (onFetchResponse t response) = [])
          ∧ (status response ≠ 200 →
             ∃ call, trace (onFetchResponse t response) = [call]
                     ∧ extra_of call = {| extra_chainId := id chain; extra_url := url t |}
                     ∧ is_warn call = isTestnetChain (id chain)
                     ∧ is_error call = negb (isTestnetChain (id chain)))
  end.
Proof.
  unfold WagmiConnectors.wagmiConfig, createWagmiConfig.
  destruct (getNonEmptyArrayOrThrow ORDERED_EVM_CHAINS) as [e|cs]; [done|].
  split; [done|]. split; [done|]. simpl. intros chain t response Ht.
  apply list_elem_of_In, in_map_iff in Ht as (u & <- & Hu). simpl.
  split; [by apply list_elem_of_In|].
  unfold defaultOnFetchResponse. case_bool_decide as Hs.
  - destruct (isTestnetChain (id chain)); simpl;
      (split; [done|]; split; [done|]; intros _; eexists; by repeat split).
  - simpl. split; [done|]. split; [done|]. intros Hne. by destruct Hne.
Qed.

End ConnectorsFacts.

(** ** What a diagnostic tells *)

Section Diagnostics.

Import WagmiConfig.

Variable isTestnetChain : Z → bool.

(** X20. A diagnostic tells what it is about: when the hook logs the same
    for two responses that are not 200, the two have the same status code,
    and come from the same URL and from chains with the same id and the
    same class (testnet or not). *)
Theorem defaultOnFetchResponse_log_determines
    (response1 response2 : Response) (chain1 chain2 : Chain) (url1 url2 : string) :
  status response1 ≠ 200 →
  status response2 ≠ 200 →
  trace (defaultOnFetchResponse isTestnetChain response1 chain1 url1)
  = trace (defaultOnFetchResponse isTestnetChain response2 chain2 url2) →
  status response1 = status response2
  ∧ id chain1 = id chain2
  ∧ url1 = url2
  ∧ isTestnetChain (id chain1) = isTestnetChain (id chain2).
Proof.
  intros H1 H2. unfold defaultOnFetchResponse.
  rewrite !bool_decide_true by done.
  destruct (isTestnetChain (id chain1)), (isTestnetChain (id chain2)); simpl;
    intros Heq; try discriminate Heq; injection Heq as Hmsg Hid Hurl;
    (split; [|by repeat split]);
    unfold toString in Hmsg; apply (inj (String.app "")) in Hmsg;
    by apply (inj pretty) in Hmsg.
Qed.

End Diagnostics.

(** ** The further conditional theorems at sample values *)

Section MoreWitnesses.

Import SwapCallback.

Local Abbreviation classic_in := (Samples.trade ClassicTrade EXACT_INPUT).
Local Abbreviation limit_out := (Samples.trade LimitOrderTrade EXACT_OUTPUT).

Lemma orderedTransportUrls_clean_witness :
  NoDup (WagmiConfig.orderedRpcUrls MoreSamples.clean_chain)
  ∧ ("" ∉ WagmiConfig.orderedRpcUrls MoreSamples.clean_chain)
  ∧ WagmiConfig.orderedTransportUrls MoreSamples.clean_chain = ["a"; "b"; "c"; "d"].
Proof.
  assert (NoDup (WagmiConfig.orderedRpcUrls MoreSamples.clean_chain)) as Hnd
    by (apply (bool_decide_unpack _); by vm_compute).
  assert ("" ∉ WagmiConfig.orderedRpcUrls MoreSamples.clean_chain) as Hne
    by (apply (bool_decide_unpack _); by vm_compute).
  split; [exact Hnd|]. split; [exact Hne|].
  exact (orderedTransportUrls_clean MoreSamples.clean_chain Hnd Hne).
Defined.

(** The router primitive rejects a classic trade on the right chain. *)
Lemma submitSwap_submission_failure_witness :
  first_failing Samples.isEVMChain Samples.useSupportedChainId
    (Samples.props (Some classic_in)) (MoreSamples.rejecting_hooks (Some 1)) = None
  ∧ outcome (swapCallback Samples.BigNumber_from
               (Samples.props (Some classic_in)) (MoreSamples.rejecting_hooks (Some 1)))
    = inl (Error "user rejected request")
  ∧ (outcome (MoreSamples.submit_rejected (Some classic_in) (Some 1))
     = inl (Error "user rejected request")
     ∧ count is_submission
         (trace (MoreSamples.submit_rejected (Some classic_in) (Some 1))) = 1%nat
     ∧ count is_record_write
         (trace (MoreSamples.submit_rejected (Some classic_in) (Some 1))) = 0%nat).
Proof.
  split; [reflexivity|]. split; [reflexivity|].
  exact (submitSwap_submission_failure
           Samples.currencyId Samples.isEVMChain Samples.useSupportedChainId
           Samples.BigNumber_from
           (Samples.props (Some classic_in)) (MoreSamples.rejecting_hooks (Some 1))
           (Error "user rejected request") eq_refl eq_refl).
Defined.

(** The record of the sample limit order. *)
Lemma submitSwap_limit_record_origin_witness :
  dispatch_addTransaction MoreSamples.limit_details
  ∈ trace (Samples.submit (Some limit_out) (Some 1) true)
  ∧ isLimitTrade (Some limit_out) = true
  ∧ Samples.isEVMChain (order_chainId MoreSamples.limit_details) = true.
Proof.
  assert (dispatch_addTransaction MoreSamples.limit_details
          ∈ trace (Samples.submit (Some limit_out) (Some 1) true)) as Hin.
  { apply list_elem_of_In. vm_compute. right. left. reflexivity. }
  split; [exact Hin|].
  destruct (submitSwap_limit_record_origin
              Samples.currencyId Samples.isEVMChain Samples.useSupportedChainId
              Samples.BigNumber_from
              (Samples.props (Some limit_out)) (Samples.hooks (Some 1) true) _ Hin)
    as (Hl & _ & _ & _ & _ & _ & Hevm & _).
  split; [exact Hl | exact Hevm].
Defined.

(** The submission call of the sample limit order. *)
Lemma submitSwap_dispatch_witness :
  uniswapXSwapCallback_call
    {| x_trade := Some limit_out; x_allowedSlippage := Samples.one_percent;
       x_fiatValues := () |}
  ∈ trace (Samples.submit (Some limit_out) (Some 1) true)
  ∧ isUniswapXTrade (Some limit_out) = true.
Proof.
  assert (uniswapXSwapCallback_call
            {| x_trade := Some limit_out; x_allowedSlippage := Samples.one_percent;
               x_fiatValues := () |}
          ∈ trace (Samples.submit (Some limit_out) (Some 1) true)) as Hin.
  { apply list_elem_of_In. vm_compute. left. reflexivity. }
  split; [exact Hin|].
  pose proof (submitSwap_dispatch
                Samples.currencyId Samples.isEVMChain Samples.useSupportedChainId
                Samples.BigNumber_from
                (Samples.props (Some limit_out)) (Samples.hooks (Some 1) true) _
                Hin eq_refl) as Hev.
  destruct (isUniswapXTrade (SwapCallback.trade (Samples.props (Some limit_out)))) eqn:Hx;
    [exact Hx | discriminate Hev].
Defined.

(** A client without a chain, asked for chain 5 and then for chain 7,
    keeps the provider of chain 5. *)
Lemma clientToProvider_network_fixed_witness :
  EthersProvider.providers (@EthersHooks.initial_heap string)
    !! EthersProvider.client_ref MoreSamples.bare_client = None
  ∧ EthersProvider.network_of MoreSamples.bare_client (Some 5)
    = Some {| EthersProvider.chainId := 5;
              EthersProvider.network_name := "Unsupported";
              EthersProvider.ensAddress := None |}
  ∧ is_Some (EthersProvider.network_of MoreSamples.bare_client (Some 7))
  ∧ ∃ p,
      (EthersProvider.clientToProvider (Some MoreSamples.bare_client) (Some 7)
         (EthersProvider.clientToProvider (Some MoreSamples.bare_client) (Some 5)
            (@EthersHooks.initial_heap string)).2).1 = Some p
      ∧ EthersProvider.chainId (EthersProvider.provider_network p) = 5.
Proof.
  assert (is_Some (EthersProvider.network_of MoreSamples.bare_client (Some 7))) as Hn2
    by (by eexists).
  split; [reflexivity|]. split; [reflexivity|]. split; [exact Hn2|].
  destruct (clientToProvider_network_fixed MoreSamples.bare_client (Some 5) (Some 7)
              (@EthersHooks.initial_heap string) _ eq_refl eq_refl Hn2)
    as (p & _ & Hnet & _ & Hagain).
  exists p. rewrite Hagain, Hnet. split; reflexivity.
Defined.

(** Two clients, called one after the other on the empty heap. *)
Lemma clientToProvider_distinct_clients_witness :
  EthersHooks.heap_wf (@EthersHooks.initial_heap string)
  ∧ ∃ p q b b',
      (EthersProvider.calls
         [(Some MoreSamples.bare_client, Some 5); (Some MoreSamples.mainnet_client, None)]
         (@EthersHooks.initial_heap string)).1 !! 0%nat
      = Some (Some MoreSamples.bare_client, Some p, b)
      ∧ (EthersProvider.calls
           [(Some MoreSamples.bare_client, Some 5); (Some MoreSamples.mainnet_client, None)]
           (@EthersHooks.initial_heap string)).1 !! 1%nat
        = Some (Some MoreSamples.mainnet_client, Some q, b')
      ∧ EthersProvider.provider_ref p ≠ EthersProvider.provider_ref q.
Proof.
  split; [apply heap_wf_initial|].
  do 4 eexists.
  assert ((EthersProvider.calls
             [(Some MoreSamples.bare_client, Some 5);
              (Some MoreSamples.mainnet_client, None)]
             (@EthersHooks.initial_heap string)).1 !! 0%nat
          = Some (Some MoreSamples.bare_client, Some _, _)) as H0
    by (vm_compute; reflexivity).
  assert ((EthersProvider.calls
             [(Some MoreSamples.bare_client, Some 5);
              (Some MoreSamples.mainnet_client, None)]
             (@EthersHooks.initial_heap string)).1 !! 1%nat
          = Some (Some MoreSamples.mainnet_client, Some _, _)) as H1
    by (vm_compute; reflexivity).
  split; [exact H0|]. split; [exact H1|].
  refine (clientToProvider_distinct_clients _ _ 0%nat 1%nat _ _ _ _ _ _
            heap_wf_initial H0 H1 _).
  vm_compute. discriminate.
Defined.

(** The connected mainnet client, first through [useEthersWeb3Provider]. *)
Lemma useEthersProvider_same_instance_witness :
  ∃ p σ1,
    EthersHooks.useEthersWeb3Provider (Some 1) (Some MoreSamples.mainnet_client)
      (@EthersHooks.initial_heap string) = (Some p, σ1)
    ∧ EthersHooks.useEthersProvider (Some 1) (Some 1) (Some MoreSamples.mainnet_client)
        (Some MoreSamples.bare_client) σ1 = (Some p, σ1).
Proof.
  do 2 eexists.
  assert (EthersHooks.useEthersWeb3Provider (Some 1) (Some MoreSamples.mainnet_client)
            (@EthersHooks.initial_heap string) = (Some _, _)) as Hrun by reflexivity.
  split; [exact Hrun|].
  exact (useEthersProvider_same_instance (Some 1) MoreSamples.mainnet_client
           (Some MoreSamples.bare_client) _ _ _ Hrun).
Defined.

(** A wallet on chain 1 and no requested chain id: the connector client
    is not used. *)
Lemma useEthersProvider_other_chain_witness :
  Some 1 ≠ (None : option Z)
  ∧ EthersHooks.useEthersProvider (Some 1) None (Some MoreSamples.mainnet_client)
      (Some MoreSamples.bare_client) (@EthersHooks.initial_heap string)
    = EthersProvider.clientToProvider (Some MoreSamples.bare_client) None
        (@EthersHooks.initial_heap string).
Proof.
  assert (Some 1 ≠ (None : option Z)) as Hne by discriminate.
  split; [exact Hne|].
  exact (proj1 (useEthersProvider_other_chain (Some 1) None
                  (Some MoreSamples.mainnet_client) (Some MoreSamples.bare_client)
                  (@EthersHooks.initial_heap string) Hne)).
Defined.

(** Status 429 and status 503 on the same chain and URL. *)
Lemma defaultOnFetchResponse_log_determines_witness :
  WagmiConfig.status {| WagmiConfig.status := 429 |} ≠ 200
  ∧ trace (WagmiConfig.defaultOnFetchResponse (λ c, bool_decide (c = 11155111))
             {| WagmiConfig.status := 429 |} Samples.chain "b")
    ≠ trace (WagmiConfig.defaultOnFetchResponse (λ c, bool_decide (c = 11155111))
               {| WagmiConfig.status := 503 |} Samples.chain "b").
Proof.
  assert (WagmiConfig.status {| WagmiConfig.status := 429 |} ≠ 200) as H1
    by (simpl; lia).
  assert (WagmiConfig.status {| WagmiConfig.status := 503 |} ≠ 200) as H2
    by (simpl; lia).
  split; [exact H1|]. intros Heq.
  destruct (defaultOnFetchResponse_log_determines (λ c, bool_decide (c = 11155111))
              _ _ _ _ _ _ H1 H2 Heq) as [Hs _].
  simpl in Hs. lia.
Defined.

End MoreWitnesses.
